(** * ATP_Beta7: the points policy engine

    A shallow embedding of the attendance-points core of [ATP_Beta7.py]:
    the date helpers, the policy calculator, the [employees] and
    [points_history] tables with the statements the program runs on them,
    the undo history, the add / undo / delete handlers and the
    auto-expiration batch.

    Conventions of the embedding.
    - A [datetime.date] is a record of year, month and day; comparison is
      the lexicographic one Python uses.  The year is an unbounded integer:
      the range MINYEAR..MAXYEAR of [datetime.date] is not modelled.
    - A date column holds ISO text [YYYY-MM-DD] in the program; here it holds
      the date itself ([None] for NULL or the empty text).  On such text
      [MAX], [<=] and [strptime]/[isoformat] agree with the date order.
    - A point value (a REAL column, a Python float) is an exact integer
      number of hundredths of a point: [50] is 0.5.  Every value the
      handlers write is a multiple of 0.5, where float arithmetic is exact.
    - The dashboard status takes any float; there a float is the rational
      it denotes. *)

From Stdlib Require Import ZArith List String Ascii Bool Lia QArith Lqa.
From Stdlib Require Import Sorted Permutation.
Import ListNotations.
Open Scope Z_scope.

(** ** Date helpers *)

Record date := mkdate { year : Z; month : Z; day : Z }.

Definition date_eqb (a b : date) : bool :=
  (year a =? year b) && (month a =? month b) && (day a =? day b).

(** [a < b] on dates. *)
Definition date_ltb (a b : date) : bool :=
  (year a <? year b)
  || ((year a =? year b)
      && ((month a <? month b)
          || ((month a =? month b) && (day a <? day b)))).

(** [a <= b] on dates. *)
Definition date_leb (a b : date) : bool := negb (date_ltb b a).

(** [date.min] *)
Definition date_min : date := mkdate 1 1 1.

Definition add_months (orig : date) (months : Z) : date :=
  let y := year orig + (month orig - 1 + months) / 12 in
  let m := (month orig - 1 + months) mod 12 + 1 in
  let dim :=
    if existsb (Z.eqb m) [1; 3; 5; 7; 8; 10; 12] then 31
    else if existsb (Z.eqb m) [4; 6; 9; 11] then 30
    else
      let leap :=
        (y mod 4 =? 0) && (negb (y mod 100 =? 0) || (y mod 400 =? 0)) in
      if leap then 29 else 28 in
  let d := Z.min (day orig) dim in
  mkdate y m d.

Definition first_of_month (d : date) : date := mkdate (year d) (month d) 1.

Definition first_of_next_month (d : date) : date :=
  add_months (first_of_month d) 1.

Definition two_months_then_first (d : date) : date :=
  first_of_next_month (add_months d 2).

Definition three_months_then_first (d : date) : date :=
  first_of_next_month (add_months d 3).

Definition step_next_due (current_due perfect_date : date) : date :=
  if date_ltb current_due perfect_date
  then two_months_then_first perfect_date
  else two_months_then_first current_due.

Definition calc_rolloff_and_perfect (last_point : date) : date * date :=
  let roll_mark := add_months last_point 2 in
  let perf_mark := add_months last_point 3 in
  (first_of_next_month roll_mark, first_of_next_month perf_mark).

(** ** The calendar as the specification words it

    These definitions follow the specification, not the program; the
    theorems on [add_months] compare the two. *)

(** Divisible by 4, except centuries unless divisible by 400. *)
Definition is_leap_year (y : Z) : bool :=
  if y mod 400 =? 0 then true
  else if y mod 100 =? 0 then false
  else y mod 4 =? 0.

(** The last valid day of month [m] of year [y]. *)
Definition last_day_of_month (y m : Z) : Z :=
  nth (Z.to_nat (m - 1))
      [31; if is_leap_year y then 29 else 28; 31; 30; 31; 30;
       31; 31; 30; 31; 30; 31] 0.

Definition valid_date (d : date) : Prop :=
  1 <= month d <= 12 /\ 1 <= day d <= last_day_of_month (year d) (month d).

(** Months elapsed since month 1 of year 0: dates [n] calendar months apart
    differ by [n] here. *)
Definition month_index (d : date) : Z := 12 * year d + (month d - 1).

(** [firstOfNextMonth(date) = firstOfMonth(addMonths(date, 1))]. *)
Definition firstOfNextMonth (d : date) : date :=
  first_of_month (add_months d 1).

(** ** Dashboard status *)

Open Scope string_scope.

Definition _status_for_total (total : Q) : string :=
  let total := if Qeq_bool total 0 then 0%Q else total in
  if Qle_bool 7 total then "Termination Risk"
  else if Qle_bool 5 total then "Critical"
  else if Qle_bool 4 total then "Warning"
  else "Safe".

Close Scope string_scope.

(** ** Text input

    [str.strip] and [datetime.strptime] for the two formats
    [parse_us_to_iso] tries, on ASCII text.  The directives follow
    CPython's patterns: [%m] is [1[0-2]|0[1-9]|[1-9]], [%d] is
    [3[01]|[12]\d|0[1-9]|[1-9]| [1-9]], [%Y] is four digits, and the whole
    text must be consumed. *)

Definition is_space (c : ascii) : bool :=
  let n := Z.of_nat (nat_of_ascii c) in
  ((9 <=? n) && (n <=? 13)) || ((28 <=? n) && (n <=? 32)).

Fixpoint lstrip (s : string) : string :=
  match s with
  | EmptyString => EmptyString
  | String c r => if is_space c then lstrip r else s
  end.

Fixpoint rstrip (s : string) : string :=
  match s with
  | EmptyString => EmptyString
  | String c r =>
      match rstrip r with
      | EmptyString => if is_space c then EmptyString else String c EmptyString
      | r' => String c r'
      end
  end.

Definition strip (s : string) : string := rstrip (lstrip s).

Definition is_empty (s : string) : bool :=
  match s with EmptyString => true | _ => false end.

Definition digit (c : ascii) : option Z :=
  let n := Z.of_nat (nat_of_ascii c) in
  if (48 <=? n) && (n <=? 57) then Some (n - 48) else None.

(** The text before the first [sep] and the text after it. *)
Fixpoint split_sep (sep : ascii) (s : string) : option (string * string) :=
  match s with
  | EmptyString => None
  | String c r =>
      if Ascii.eqb c sep then Some (EmptyString, r)
      else match split_sep sep r with
           | Some (a, b) => Some (String c a, b)
           | None => None
           end
  end.

Definition directive_m (t : string) : option Z :=
  match t with
  | String a EmptyString =>
      match digit a with
      | Some x => if 1 <=? x then Some x else None
      | None => None
      end
  | String a (String b EmptyString) =>
      match digit a, digit b with
      | Some x, Some y =>
          if (x =? 1) && (y <=? 2) then Some (10 + y)
          else if (x =? 0) && (1 <=? y) then Some y
          else None
      | _, _ => None
      end
  | _ => None
  end.

Definition directive_d (t : string) : option Z :=
  match t with
  | String a EmptyString =>
      match digit a with
      | Some x => if 1 <=? x then Some x else None
      | None => None
      end
  | String a (String b EmptyString) =>
      match digit a, digit b with
      | Some x, Some y =>
          if (x =? 3) && (y <=? 1) then Some (30 + y)
          else if (1 <=? x) && (x <=? 2) then Some (10 * x + y)
          else if (x =? 0) && (1 <=? y) then Some y
          else None
      | None, Some y =>
          if Ascii.eqb a " " && (1 <=? y) then Some y else None
      | _, _ => None
      end
  | _ => None
  end.

Definition directive_Y (t : string) : option Z :=
  match t with
  | String a (String b (String c (String d EmptyString))) =>
      match digit a, digit b, digit c, digit d with
      | Some w, Some x, Some y, Some z =>
          Some (1000 * w + 100 * x + 10 * y + z)
      | _, _, _, _ => None
      end
  | _ => None
  end.

(** [datetime._days_in_month] *)
Definition days_in_month (y m : Z) : Z :=
  if (m =? 2) && ((y mod 4 =? 0) && (negb (y mod 100 =? 0) || (y mod 400 =? 0)))
  then 29
  else nth (Z.to_nat m) [0; 31; 28; 31; 30; 31; 30; 31; 31; 30; 31; 30; 31] 0.

(** [datetime.strptime(s, "%m<sep>%d<sep>%Y").date()]; [None] stands for
    ValueError (no match, or no such calendar day). *)
Definition strptime_mdY (sep : ascii) (s : string) : option date :=
  match split_sep sep s with
  | None => None
  | Some (mt, rest) =>
      match split_sep sep rest with
      | None => None
      | Some (dt, yt) =>
          match directive_m mt, directive_d dt, directive_Y yt with
          | Some m, Some d, Some y =>
              if (1 <=? y) && (d <=? days_in_month y m)
              then Some (mkdate y m d) else None
          | _, _, _ => None
          end
      end
  end.

Definition parse_us_to_iso (s : string) : option date :=
  let s := strip s in
  if is_empty s then None
  else match strptime_mdY "-" s with
       | Some d => Some d
       | None => strptime_mdY "/" s
       end.

(** ** Undo history *)

Definition MAX_UNDO_HISTORY : nat := 20.

Record undo_data := mkundo {
  u_point_id : Z;
  u_emp_id : Z;
  u_points : Z;
  old_total : option Z;
  old_last_date : option date }.

Record undo_action := mkaction { action_type : string; action_data : undo_data }.

(** The class [UndoHistory]: a [deque(maxlen=max_size)], oldest entry
    first.  Appending to a full deque drops the oldest entry. *)
Module UndoHistory.

Definition t := list undo_action.

Definition init : t := [].

Definition push (history : t) (action_type : string) (data : undo_data) : t :=
  (if (MAX_UNDO_HISTORY <=? List.length history)%nat then tl history else history)
    ++ [mkaction action_type data].

Definition pop (history : t) : option undo_action * t :=
  match rev history with
  | [] => (None, history)
  | a :: r => (Some a, rev r)
  end.

Definition has_undo (history : t) : bool := (0 <? List.length history)%nat.

Definition clear (history : t) : t := [].

End UndoHistory.

(** ** Tables

    The columns of [employees] and [points_history] the engine reads or
    writes.  [sqlite_sequence] is the largest [id] that [points_history]
    ever held: the column is AUTOINCREMENT, so a deleted id is not given
    out again. *)

Record employee := mkemployee {
  employee_id : Z;
  last_name : string;
  first_name : string;
  point_total : option Z;
  last_point_date : option date;
  rolloff_date : option date;
  perfect_attendance : option date }.

Record point_row := mkpoint {
  point_id : Z;
  h_employee_id : Z;
  point_date : date;
  points : Z;
  reason : string;
  note : string;
  flag_code : string }.

Record database := mkdb {
  employees : list employee;
  points_history : list point_row;
  sqlite_sequence : Z }.

(** [SELECT ... FROM employees WHERE employee_id=?], [fetchone()]. *)
Definition select_employee (db : database) (emp_id : Z) : option employee :=
  find (fun e => employee_id e =? emp_id) (employees db).

(** [UPDATE employees SET ... WHERE employee_id=?]. *)
Definition update_employees (db : database) (emp_id : Z)
    (set : employee -> employee) : database :=
  mkdb (map (fun e => if employee_id e =? emp_id then set e else e)
            (employees db))
       (points_history db) (sqlite_sequence db).

Definition max_point_id (rows : list point_row) : Z :=
  fold_right (fun r m => Z.max (point_id r) m) 0 rows.

(** [INSERT INTO points_history (...) VALUES (...)], with [cur.lastrowid]. *)
Definition insert_point (db : database) (emp_id : Z) (d : date) (pts : Z)
    (reason note flag : string) : database * Z :=
  let new_id :=
    Z.max (sqlite_sequence db) (max_point_id (points_history db)) + 1 in
  (mkdb (employees db)
        (points_history db ++ [mkpoint new_id emp_id d pts reason note flag])
        new_id,
   new_id).

(** [DELETE FROM points_history WHERE id=?]. *)
Definition delete_point (db : database) (pid : Z) : database :=
  mkdb (employees db)
       (filter (fun r => negb (point_id r =? pid)) (points_history db))
       (sqlite_sequence db).

Definition history_of (db : database) (emp_id : Z) : list point_row :=
  filter (fun r => h_employee_id r =? emp_id) (points_history db).

(** [MAX(point_date)]: NULL over no rows. *)
Fixpoint max_point_date (rows : list point_row) : option date :=
  match rows with
  | [] => None
  | r :: rest =>
      match max_point_date rest with
      | None => Some (point_date r)
      | Some m => Some (if date_ltb m (point_date r) then point_date r else m)
      end
  end.

Definition total_points (rows : list point_row) : Z :=
  fold_right (fun r s => points r + s) 0 rows.

(** [SUM(points)]: NULL over no rows. *)
Definition sum_points (rows : list point_row) : option Z :=
  match rows with
  | [] => None
  | _ => Some (total_points rows)
  end.

(** [float(x or 0.0)] and [COALESCE(x, 0)] on a point column. *)
Definition or_zero (x : option Z) : Z :=
  match x with Some v => v | None => 0 end.

(** ** Points tab: add, undo, delete *)

(** The state of the class [AddPointsFrame] the handlers use. *)
Record AddPointsFrame := mkframe {
  conn : database;
  undo_history : UndoHistory.t }.

(** What the handler reads from the form: the employee the combobox
    resolves to ([_resolve_emp_id()]), the text of the date box, the
    outcome of [float(self.point_var.get())] ([None] when it raises), and
    the reason, note and flag texts. *)
Record point_form := mkform {
  emp_sel : option Z;
  date_var : string;
  point_var : option Q;
  reason_var : string;
  note_text : string;
  flag_var : string }.

(** [pts not in (0.5, 1.0, 1.5)] leaves [None]. *)
Definition allowed_points (pts : option Q) : option Z :=
  match pts with
  | None => None
  | Some q =>
      if Qeq_bool q (1 # 2) then Some 50
      else if Qeq_bool q 1 then Some 100
      else if Qeq_bool q (3 # 2) then Some 150
      else None
  end.

(** How a handler ends: the dialog it shows, or the status line it sets.
    [IntegrityError] is the exception the INSERT raises under
    [PRAGMA foreign_keys=ON] when the employee row is missing. *)
Inductive outcome :=
  | SelectEmployee
  | InvalidDate
  | InvalidPoints
  | ReasonMissing
  | IntegrityError
  | PointAdded
  | NoActionsToUndo
  | ActionIgnored
  | PointUndone.

Definition _add_point (self : AddPointsFrame) (form : point_form) : outcome * AddPointsFrame :=
  match emp_sel form with
  | None => (SelectEmployee, self)
  | Some emp_id =>
    if emp_id =? 0 then (SelectEmployee, self) else
    match parse_us_to_iso (date_var form) with
    | None => (InvalidDate, self)
    | Some iso_date =>
      match allowed_points (point_var form) with
      | None => (InvalidPoints, self)
      | Some pts =>
        let reason := strip (reason_var form) in
        if is_empty reason then (ReasonMissing, self) else
        let note := strip (note_text form) in
        let flag := strip (flag_var form) in
        let old_emp := select_employee (conn self) emp_id in
        match old_emp with
        | None => (IntegrityError, self)
        | Some _ =>
          let (db1, point_id) :=
            insert_point (conn self) emp_id iso_date pts reason note flag in
          let last_point := iso_date in
          let (rolloff_date, perfect_date) :=
            calc_rolloff_and_perfect last_point in
          let db2 :=
            update_employees db1 emp_id (fun e =>
              mkemployee (employee_id e) (last_name e) (first_name e)
                (Some (or_zero (point_total e) + pts))
                (Some iso_date) (Some rolloff_date) (Some perfect_date)) in
          let history :=
            UndoHistory.push (undo_history self) "add_point"%string
              (mkundo point_id emp_id pts
                 (match old_emp with
                  | Some e => point_total e | None => Some 0 end)
                 (match old_emp with
                  | Some e => last_point_date e | None => None end)) in
          (PointAdded, mkframe db2 history)
        end
      end
    end
  end.

(** The two statements [_undo_point] and the Manage Points window's
    [recompute_employee_after_change] both run for their employee. *)
Definition recompute_employee_after_change (db : database) (emp_id : Z)
    : database :=
  let rows := history_of db emp_id in
  let new_total := or_zero (sum_points rows) in
  match max_point_date rows with
  | None =>
      update_employees db emp_id (fun e =>
        mkemployee (employee_id e) (last_name e) (first_name e)
          (Some new_total) None None None)
  | Some d =>
      let (rolloff, perfect) := calc_rolloff_and_perfect d in
      update_employees db emp_id (fun e =>
        mkemployee (employee_id e) (last_name e) (first_name e)
          (Some new_total) (Some d) (Some rolloff) (Some perfect))
  end.

Definition _undo_point (self : AddPointsFrame) : outcome * AddPointsFrame :=
  match UndoHistory.pop (undo_history self) with
  | (None, _) => (NoActionsToUndo, self)
  | (Some action, history) =>
      if String.eqb (action_type action) "add_point"%string then
        let data := action_data action in
        let db1 := delete_point (conn self) (u_point_id data) in
        (PointUndone,
         mkframe (recompute_employee_after_change db1 (u_emp_id data)) history)
      else (ActionIgnored, mkframe (conn self) history)
  end.

(** Manage Points, [delete_selected] for the row [pid] of the window of
    employee [emp_id], once the user has confirmed. *)
Definition delete_selected (db : database) (emp_id pid : Z) : database :=
  recompute_employee_after_change (delete_point db pid) emp_id.

(** ** Reports tab: the 2-month roll-off *)

(** One row of the CSV audit: the date is written as MM-DD-YYYY, the
    deduction as [-removed] and the total with one decimal. *)
Record log_row := mklog {
  log_emp_id : Z;
  log_last_name : string;
  log_first_name : string;
  log_date : date;
  log_removed : Z;
  log_total : Z }.

(** The loop of the branch [current_total > 0].  [fuel] bounds the number
    of turns; [round(x, 2)] is the identity on hundredths. *)
Fixpoint rolloff_loop (fuel : nat) (today_date perfect_date : date)
    (current_total removed : Z) (next_roll : date) : Z * Z * date :=
  match fuel with
  | O => (current_total, removed, next_roll)
  | S fuel' =>
      if date_leb next_roll today_date && (0 <? current_total)
      then rolloff_loop fuel' today_date perfect_date
             (Z.max 0 (current_total - 100)) (removed + 1)
             (step_next_due next_roll perfect_date)
      else (current_total, removed, next_roll)
  end.

(** The loop of the other branch: only the due date moves. *)
Fixpoint bump_loop (fuel : nat) (today_date perfect_date next_roll : date)
    : date :=
  match fuel with
  | O => next_roll
  | S fuel' =>
      if date_leb next_roll today_date
      then bump_loop fuel' today_date perfect_date
             (step_next_due next_roll perfect_date)
      else next_roll
  end.

(** Turns that suffice for each loop: a turn takes a whole point, or all
    that is left, off the total, and moves the due date at least three
    months on. *)
Definition rolloff_fuel (current_total : Z) : nat :=
  Z.to_nat (current_total / 100 + 1).

Definition bump_fuel (today_date next_roll : date) : nat :=
  Z.to_nat (month_index today_date - month_index next_roll + 1).

(** The body of [for rec in expired_recs] up to [removed]: the new total,
    the number of deductions and the new due date. *)
Definition expire_rec (today_date : date) (rec : employee) (next_roll : date)
    : Z * Z * date :=
  let current_total := or_zero (point_total rec) in
  let perfect_date :=
    match last_point_date rec with
    | Some anchor => three_months_then_first anchor
    | None => date_min
    end in
  if 0 <? current_total
  then rolloff_loop (rolloff_fuel current_total) today_date perfect_date
         current_total 0 next_roll
  else (current_total, 0,
        bump_loop (bump_fuel today_date next_roll) today_date perfect_date
          next_roll).

(** The rest of the body: what is written for [rec]. *)
Definition expire_step (today_date : date) (acc : database * list log_row)
    (rec : employee) : database * list log_row :=
  let (db, log_rows) := acc in
  match rolloff_date rec with
  | None => acc
  | Some next_roll0 =>
      let '(current_total, removed, next_roll) :=
        expire_rec today_date rec next_roll0 in
      let emp_id := employee_id rec in
      if 0 <? removed then
        let db1 :=
          update_employees db emp_id (fun e =>
            mkemployee (employee_id e) (last_name e) (first_name e)
              (Some current_total) (last_point_date e) (Some next_roll)
              (perfect_attendance e)) in
        let db2 :=
          fst (insert_point db1 emp_id today_date (-100 * removed)
                 "Auto Rolloff Adjustment"%string
                 "Automatic 2-Month Point Expiration (perfect-month skip)"%string
                 "AUTO"%string) in
        (db2,
         log_rows ++ [mklog emp_id (last_name rec) (first_name rec)
                        today_date removed current_total])
      else if negb (date_eqb next_roll0 next_roll) then
        (update_employees db emp_id (fun e =>
           mkemployee (employee_id e) (last_name e) (first_name e)
             (point_total e) (last_point_date e) (Some next_roll)
             (perfect_attendance e)),
         log_rows)
      else acc
  end.

(** [WHERE rolloff_date IS NOT NULL AND date(rolloff_date) <= date('now')] *)
Definition expired (sql_now : date) (e : employee) : bool :=
  match rolloff_date e with
  | Some r => date_leb r sql_now
  | None => false
  end.

(** [auto_expire_points]: the database after the commit and the rows of
    the audit.  [today_date] is [date.today()], the local day;
    [sql_now] is SQLite's [date('now')], the UTC day. *)
Definition auto_expire_points (today_date sql_now : date) (db : database)
    : database * list log_row :=
  let expired_recs := filter (expired sql_now) (employees db) in
  fold_left (expire_step today_date) expired_recs (db, []).

(** ** Notions the properties are stated with *)

(** The sum of the magnitudes of the employee's ledger events. *)
Definition ledger_total (db : database) (emp_id : Z) : Z :=
  total_points (history_of db emp_id).

(** The latest date among the employee's positive-magnitude events. *)
Definition last_infraction_date (db : database) (emp_id : Z) : option date :=
  max_point_date (filter (fun r => 0 <? points r) (history_of db emp_id)).

(** The stored total of row [e] is the sum of its ledger events. *)
Definition total_in_sync (db : database) (e : employee) : Prop :=
  point_total e = Some (ledger_total db (employee_id e)).

(** The stored last point date of row [e] is the latest date among all
    of its ledger events, of either sign, as the recomputation takes it. *)
Definition anchor_in_sync (db : database) (e : employee) : Prop :=
  last_point_date e = max_point_date (history_of db (employee_id e)).

(** [employee_id] is the primary key of [employees]. *)
Definition unique_employee_ids (db : database) : Prop :=
  NoDup (map employee_id (employees db)).

(** The deductions a run makes for the row [rec]. *)
Definition removed_of (today_date : date) (rec : employee) : Z :=
  match rolloff_date rec with
  | None => 0
  | Some next_roll0 => snd (fst (expire_rec today_date rec next_roll0))
  end.

(** What a run writes into a row with the key of [rec], from the values
    read in [rec]. *)
Definition touch (today_date : date) (rec e : employee) : employee :=
  match rolloff_date rec with
  | None => e
  | Some next_roll0 =>
      let '(current_total, removed, next_roll) :=
        expire_rec today_date rec next_roll0 in
      if 0 <? removed then
        mkemployee (employee_id e) (last_name e) (first_name e)
          (Some current_total) (last_point_date e) (Some next_roll)
          (perfect_attendance e)
      else if negb (date_eqb next_roll0 next_roll) then
        mkemployee (employee_id e) (last_name e) (first_name e)
          (point_total e) (last_point_date e) (Some next_roll)
          (perfect_attendance e)
      else e
  end.

(** A row after a run. *)
Definition expire_row (today_date sql_now : date) (e : employee) : employee :=
  if expired sql_now e then touch today_date e e else e.


(** ** A worked example

    Employee 100 as [_add_employee] creates her, and forms that record an
    infraction for her. *)

Definition jane : employee :=
  mkemployee 100 "Doe" "Jane" (Some 0) None None None.

Definition fresh : AddPointsFrame := mkframe (mkdb [jane] [] 0) UndoHistory.init.

Definition infraction (date_text : string) (pts : Q) : point_form :=
  mkform (Some 100) date_text (Some pts) "Absence" "" "".

Definition after (self : AddPointsFrame) (form : point_form) : AddPointsFrame :=
  snd (_add_point self form).

(** ** Dates as text *)

(** The character of the decimal digit [k]. *)
Definition digit_char (k : Z) : ascii := ascii_of_nat (Z.to_nat (48 + k)).

(** [%02d] and [%04d]. *)
Definition two_digits (n : Z) : string :=
  String (digit_char (n / 10 mod 10))
    (String (digit_char (n mod 10)) EmptyString).

Definition four_digits (n : Z) : string :=
  String (digit_char (n / 1000 mod 10))
    (String (digit_char (n / 100 mod 10)) (two_digits n)).

(** [d.strftime("%m-%d-%Y")].  Below year 1000 the C library decides
    whether [%Y] is padded; the text here is the padded one. *)
Definition strftime_mdY (d : date) : string :=
  (two_digits (month d) ++ String "-" (two_digits (day d))
   ++ String "-" (four_digits (year d)))%string.

(** [d.isoformat()] *)
Definition isoformat (d : date) : string :=
  (four_digits (year d) ++ String "-" (two_digits (month d))
   ++ String "-" (two_digits (day d)))%string.

(** [datetime.strptime(s, "%Y<sep>%m<sep>%d").date()] *)
Definition strptime_Ymd (sep : ascii) (s : string) : option date :=
  match split_sep sep s with
  | None => None
  | Some (yt, rest) =>
      match split_sep sep rest with
      | None => None
      | Some (mt, dt) =>
          match directive_Y yt, directive_m mt, directive_d dt with
          | Some y, Some m, Some d =>
              if (1 <=? y) && (d <=? days_in_month y m)
              then Some (mkdate y m d) else None
          | _, _, _ => None
          end
      end
  end.

(** What [ymd_to_us] is given: [None], a [date], or text. *)
Inductive iso_value :=
  | IsoNone
  | IsoDate (d : date)
  | IsoText (s : string).

Definition ymd_to_us (iso_val : iso_value) : string :=
  match iso_val with
  | IsoNone => EmptyString
  | IsoDate d => strftime_mdY d
  | IsoText raw =>
      if is_empty raw then EmptyString
      else
        let s := strip raw in
        match strptime_Ymd "-" s with
        | Some d => strftime_mdY d
        | None =>
            match strptime_mdY "/" s with
            | Some d => strftime_mdY d
            | None =>
                match strptime_mdY "-" s with
                | Some d => strftime_mdY d
                | None =>
                    match strptime_Ymd "/" s with
                    | Some d => strftime_mdY d
                    | None => s
                    end
                end
            end
        end
  end.

(** ** Further notions the properties are stated with *)


(** No two ledger rows share an id, and none is above the last id given
    out. *)
Definition event_ids_ok (db : database) : Prop :=
  NoDup (map point_id (points_history db))
  /\ forall r, In r (points_history db) -> point_id r <= sqlite_sequence db.

(** The rows of the other employees. *)
Definition other_rows (db : database) (emp_id : Z) : list employee :=
  filter (fun e => negb (employee_id e =? emp_id)) (employees db).

(** An undo history with its oldest entry dropped when it is full: what
    an append to the deque keeps of it. *)
Definition trimmed (h : UndoHistory.t) : UndoHistory.t :=
  if (MAX_UNDO_HISTORY <=? List.length h)%nat then tl h else h.

(** ** Employees tab: add and delete *)

(** [int(s)] on ASCII text: an optional sign, then digits, single
    underscores allowed between digits; [None] stands for ValueError. *)
Fixpoint digits_value (acc : Z) (after_digit : bool) (s : string)
    : option Z :=
  match s with
  | EmptyString => if after_digit then Some acc else None
  | String c r =>
      match digit c with
      | Some k => digits_value (10 * acc + k) true r
      | None =>
          if Ascii.eqb c "_" && after_digit then digits_value acc false r
          else None
      end
  end.

Definition py_int (s : string) : option Z :=
  match strip s with
  | String "+" r => digits_value 0 false r
  | String "-" r => option_map Z.opp (digits_value 0 false r)
  | t => digits_value 0 false t
  end.

(** The four entry boxes of the Add Employee row. *)
Record employee_form := mkeform {
  new_id : string;
  new_last : string;
  new_first : string;
  new_perfect : string }.

Inductive employee_outcome :=
  | MissingInfo
  | InvalidID
  | InvalidPerfectDate
  | DuplicateID
  | EmployeeAdded.

(** [INSERT INTO employees]: [employee_id] is the INTEGER PRIMARY KEY, so
    the table is kept, and scanned, in the order of the key. *)
Fixpoint insert_employee (e : employee) (rows : list employee)
    : list employee :=
  match rows with
  | [] => [e]
  | x :: rest =>
      if employee_id e <? employee_id x then e :: rows
      else x :: insert_employee e rest
  end.

Definition _add_employee (db : database) (form : employee_form)
    : employee_outcome * database :=
  let emp_id_raw := strip (new_id form) in
  let last := strip (new_last form) in
  let first := strip (new_first form) in
  let perfect_date_input := strip (new_perfect form) in
  if is_empty emp_id_raw || is_empty last || is_empty first
  then (MissingInfo, db)
  else
    match py_int emp_id_raw with
    | None => (InvalidID, db)
    | Some emp_id =>
        if emp_id <=? 0 then (InvalidID, db)
        else
          let perfect_iso :=
            if is_empty perfect_date_input then Some None
            else option_map Some (parse_us_to_iso perfect_date_input) in
          match perfect_iso with
          | None => (InvalidPerfectDate, db)
          | Some perfect_iso =>
              match select_employee db emp_id with
              | Some _ => (DuplicateID, db)
              | None =>
                  (EmployeeAdded,
                   mkdb (insert_employee
                           (mkemployee emp_id last first (Some 0) None None
                              perfect_iso)
                           (employees db))
                        (points_history db) (sqlite_sequence db))
              end
          end
    end.

(** The two DELETE statements that remove an employee and all of the
    employee's point history. *)
Definition delete_employee (db : database) (emp_id : Z) : database :=
  mkdb (filter (fun e => negb (employee_id e =? emp_id)) (employees db))
       (filter (fun r => negb (h_employee_id r =? emp_id)) (points_history db))
       (sqlite_sequence db).

(** [_delete_employee_prompt]; [confirmed] is the answer to the dialog. *)
Definition _delete_employee_prompt (db : database) (emp_id : Z)
    (confirmed : bool) : database :=
  if confirmed then delete_employee db emp_id else db.

(** [delete_selected_employees] for the selected ids [sel]. *)
Definition delete_selected_employees (db : database) (sel : list Z)
    (confirmed : bool) : database :=
  match sel with
  | [] => db
  | _ => if confirmed then fold_left delete_employee sel db else db
  end.

(** ** Reports tab: the perfect-attendance report *)

(** One row of the report: the two dates are written as MM-DD-YYYY and
    the total with one decimal. *)
Record perfect_row := mkprow {
  pa_emp_id : Z;
  pa_last_name : string;
  pa_first_name : string;
  pa_due : date;
  pa_next : date;
  pa_total : Z }.

(** [WHERE perfect_attendance IS NOT NULL
     AND date(perfect_attendance) <= date(?)] *)
Definition perfect_due (as_of_date : date) (e : employee) : bool :=
  match perfect_attendance e with
  | Some p => date_leb p as_of_date
  | None => false
  end.

(** [ORDER BY last_name, first_name], byte by byte as SQLite's BINARY
    collation compares.  Rows with the same names keep the order of the
    table; SQLite leaves their order open. *)
Definition name_leb (a b : employee) : bool :=
  match String.compare (last_name a) (last_name b) with
  | Lt => true
  | Gt => false
  | Eq => String.leb (first_name a) (first_name b)
  end.

Fixpoint insert_by_name (e : employee) (rows : list employee)
    : list employee :=
  match rows with
  | [] => [e]
  | x :: rest =>
      if name_leb e x then e :: rows else x :: insert_by_name e rest
  end.

Definition order_by_name (rows : list employee) : list employee :=
  fold_right insert_by_name [] rows.

(** The row [log_rows.append([...])] adds for [rec], due on [due_d]. *)
Definition perfect_line (rec : employee) (due_d : date) : perfect_row :=
  mkprow (employee_id rec) (last_name rec) (first_name rec) due_d
    (three_months_then_first due_d) (or_zero (point_total rec)).

(** The body of [for rec in rows]. *)
Definition perfect_step (dry_run : bool)
    (acc : database * list perfect_row) (rec : employee)
    : database * list perfect_row :=
  let (db, log_rows) := acc in
  match perfect_attendance rec with
  | None => acc
  | Some due_d =>
      let next_d := three_months_then_first due_d in
      let log_rows := log_rows ++ [perfect_line rec due_d] in
      if dry_run then (db, log_rows)
      else
        (update_employees db (employee_id rec) (fun e =>
           mkemployee (employee_id e) (last_name e) (first_name e)
             (point_total e) (last_point_date e) (rolloff_date e)
             (Some next_d)),
         log_rows)
  end.

(** [perfect_attendance_report(as_of, dry_run)]: the database after the
    commit and the rows of the report. *)
Definition perfect_attendance_report (as_of_date : date) (dry_run : bool)
    (db : database) : database * list perfect_row :=
  let rows := order_by_name (filter (perfect_due as_of_date) (employees db)) in
  fold_left (perfect_step dry_run) rows (db, []).

(** A row after a real run of the report. *)
Definition advance_perfect (as_of_date : date) (e : employee) : employee :=
  match perfect_attendance e with
  | Some p =>
      if date_leb p as_of_date
      then mkemployee (employee_id e) (last_name e) (first_name e)
             (point_total e) (last_point_date e) (rolloff_date e)
             (Some (three_months_then_first p))
      else e
  | None => e
  end.

(** What the loop of a real run has written into the row [e] after the
    record [rec]. *)
Definition perfect_bump (e rec : employee) : employee :=
  match perfect_attendance rec with
  | Some due_d =>
      if employee_id e =? employee_id rec
      then mkemployee (employee_id e) (last_name e) (first_name e)
             (point_total e) (last_point_date e) (rolloff_date e)
             (Some (three_months_then_first due_d))
      else e
  | None => e
  end.

(** ** Reports tab: the point-history export *)

(** One line of the CSV; the date is written as MM-DD-YYYY, the points
    and the running total with one decimal. *)
Record export_row := mkxrow {
  x_entry_id : Z;
  x_emp_id : Z;
  x_last_name : string;
  x_first_name : string;
  x_point_date : date;
  x_points : Z;
  x_reason : string;
  x_note : string;
  x_flag_code : string;
  x_point_total : Z }.

(** [FROM points_history p JOIN employees e
     ON e.employee_id = p.employee_id] *)
Definition join_history (db : database) : list (point_row * employee) :=
  flat_map
    (fun p =>
       map (fun e => (p, e))
         (filter (fun e => employee_id e =? h_employee_id p) (employees db)))
    (points_history db).

(** [ORDER BY e.employee_id ASC, p.point_date ASC, p.id ASC] *)
Definition export_leb (a b : point_row * employee) : bool :=
  let '(pa, ea) := a in
  let '(pb, eb) := b in
  (employee_id ea <? employee_id eb)
  || ((employee_id ea =? employee_id eb)
      && (date_ltb (point_date pa) (point_date pb)
          || (date_eqb (point_date pa) (point_date pb)
              && (point_id pa <=? point_id pb)))).

Fixpoint insert_export (a : point_row * employee)
    (rows : list (point_row * employee)) : list (point_row * employee) :=
  match rows with
  | [] => [a]
  | x :: rest =>
      if export_leb a x then a :: rows else x :: insert_export a rest
  end.

Definition order_export (rows : list (point_row * employee))
    : list (point_row * employee) :=
  fold_right insert_export [] rows.

(** The dict [cumulative]: the latest binding of a key comes first. *)
Definition dict := list (Z * Z).

Definition dict_get (d : dict) (k : Z) : option Z :=
  option_map snd (find (fun kv => fst kv =? k) d).

Definition dict_set (d : dict) (k v : Z) : dict := (k, v) :: d.

(** The body of [for r in rows]: the dict after the row, and the line
    written. *)
Definition export_step (cumulative : dict) (r : point_row * employee)
    : dict * export_row :=
  let '(p, e) := r in
  let emp_id := employee_id e in
  let pts := points p in
  let cumulative :=
    match dict_get cumulative emp_id with
    | None => dict_set cumulative emp_id 0
    | Some _ => cumulative
    end in
  let cumulative :=
    dict_set cumulative emp_id (or_zero (dict_get cumulative emp_id) + pts) in
  let point_total := or_zero (dict_get cumulative emp_id) in
  (cumulative,
   mkxrow (point_id p) emp_id (last_name e) (first_name e) (point_date p)
     pts (reason p) (note p) (flag_code p) point_total).

Fixpoint export_lines (cumulative : dict) (rows : list (point_row * employee))
    : list export_row :=
  match rows with
  | [] => []
  | r :: rest =>
      let (cumulative, line) := export_step cumulative r in
      line :: export_lines cumulative rest
  end.

(** [export_point_history]: the lines of the CSV under its header. *)
Definition export_point_history (db : database) : list export_row :=
  export_lines [] (order_export (join_history db)).

(** The points of the joined rows [rows] that belong to employee [k]. *)
Definition joined_points (k : Z) (rows : list (point_row * employee)) : Z :=
  fold_right
    (fun r s => (if employee_id (snd r) =? k then points (fst r) else 0) + s)
    0 rows.

(** The points exported for employee [k] in the lines [rows]. *)
Definition exported_points (rows : list export_row) (k : Z) : Z :=
  fold_right (fun x s => (if x_emp_id x =? k then x_points x else 0) + s)
    0 rows.

(** * Calendar math *)

Section Calendar.

Implicit Types (d : date) (n y m : Z).

Lemma add_months_month d n : 1 <= month (add_months d n) <= 12.
Proof.
  unfold add_months; cbn [month].
  pose proof (Z.mod_pos_bound (month d - 1 + n) 12 ltac:(lia)); lia.
Qed.

Lemma month_index_add_months d n :
  month_index (add_months d n) = month_index d + n.
Proof.
  unfold month_index, add_months; cbn [year month].
  pose proof (Z.div_mod (month d - 1 + n) 12 ltac:(lia)); lia.
Qed.

(** The leap test written in [add_months] is the Gregorian rule. *)
Lemma leap_test_gregorian y :
  (y mod 4 =? 0) && (negb (y mod 100 =? 0) || (y mod 400 =? 0))
  = is_leap_year y.
Proof.
  unfold is_leap_year.
  destruct (Z.eqb_spec (y mod 400) 0), (Z.eqb_spec (y mod 100) 0),
    (Z.eqb_spec (y mod 4) 0); cbn; try reflexivity; exfalso;
    Z.div_mod_to_equations; lia.
Qed.

Lemma month_cases m :
  1 <= m <= 12 ->
  m = 1 \/ m = 2 \/ m = 3 \/ m = 4 \/ m = 5 \/ m = 6 \/
  m = 7 \/ m = 8 \/ m = 9 \/ m = 10 \/ m = 11 \/ m = 12.
Proof. lia. Qed.

Lemma add_months_day d n :
  day (add_months d n)
  = Z.min (day d)
      (last_day_of_month (year (add_months d n)) (month (add_months d n))).
Proof.
  pose proof (add_months_month d n) as Hm.
  unfold add_months in *; cbn [year month day] in *.
  rewrite leap_test_gregorian.
  set (m := (month d - 1 + n) mod 12 + 1) in *.
  destruct (month_cases m Hm) as
    [E|[E|[E|[E|[E|[E|[E|[E|[E|[E|[E|E]]]]]]]]]]]; rewrite E;
    reflexivity.
Qed.

Lemma last_day_of_month_range y m :
  1 <= m <= 12 -> 28 <= last_day_of_month y m <= 31.
Proof.
  intros Hm.
  destruct (month_cases m Hm) as
    [E|[E|[E|[E|[E|[E|[E|[E|[E|[E|[E|E]]]]]]]]]]]; subst m;
    unfold last_day_of_month; destruct (is_leap_year y);
    vm_compute; split; discriminate.
Qed.

Lemma first_of_next_month_spec d :
  first_of_next_month d = firstOfNextMonth d.
Proof.
  unfold firstOfNextMonth, first_of_next_month, first_of_month.
  pose proof (add_months_day (mkdate (year d) (month d) 1) 1) as Hd.
  pose proof (add_months_month (mkdate (year d) (month d) 1) 1) as Hm.
  pose proof (last_day_of_month_range
                (year (add_months (mkdate (year d) (month d) 1) 1)) _ Hm).
  cbn [day] in Hd.
  destruct (add_months (mkdate (year d) (month d) 1) 1) as [y m dd] eqn:E.
  cbn [year month day] in *.
  assert (year (add_months d 1) = y /\ month (add_months d 1) = m) as [<- <-].
  { unfold add_months in *; cbn [year month] in *.
    injection E as <- <- _. split; reflexivity. }
  f_equal. lia.
Qed.

End Calendar.


(** C7.  For every last infraction date [d] the policy calculator
    returns the roll-off due date [firstOfNextMonth (addMonths d 2)] and
    the perfect-attendance date [firstOfNextMonth (addMonths d 3)]; for
    2025-01-15 these are 2025-04-01 and 2025-05-01. *)
Theorem calc_rolloff_and_perfect_spec :
  (forall d,
     calc_rolloff_and_perfect d =
       (firstOfNextMonth (add_months d 2), firstOfNextMonth (add_months d 3)))
  /\ calc_rolloff_and_perfect (mkdate 2025 1 15)
     = (mkdate 2025 4 1, mkdate 2025 5 1).
Proof.
  split; [intros d | reflexivity].
  unfold calc_rolloff_and_perfect. now rewrite !first_of_next_month_spec.
Qed.


(** C10.  The status depends on the total alone, through ordered bands
    that do not overlap and whose lower bounds belong to the band above:
    at 7.0 and over Termination Risk, from 5.0 up to 7.0 Critical, from
    4.0 up to 5.0 Warning, and under 4.0, zero included, Safe. *)
Theorem status_for_total_bands (total : Q) :
  ((7 <= total)%Q -> _status_for_total total = "Termination Risk"%string)
  /\ ((5 <= total)%Q /\ (total < 7)%Q ->
      _status_for_total total = "Critical"%string)
  /\ ((4 <= total)%Q /\ (total < 5)%Q ->
      _status_for_total total = "Warning"%string)
  /\ ((total < 4)%Q -> _status_for_total total = "Safe"%string).
Proof.
  unfold _status_for_total.
  destruct (Qeq_bool total 0) eqn:E0.
  - apply Qeq_bool_iff in E0.
    repeat split; intros; try reflexivity; exfalso; lra.
  - destruct (Qle_bool 7 total) eqn:E7;
    destruct (Qle_bool 5 total) eqn:E5;
    destruct (Qle_bool 4 total) eqn:E4;
    try (apply Qle_bool_iff in E7);
    try (apply Qle_bool_iff in E5);
    try (apply Qle_bool_iff in E4);
    repeat split; intros; try reflexivity; exfalso;
    repeat match goal with
    | H : Qle_bool ?a ?b = false |- _ =>
        assert (~ (a <= b)%Q) by (rewrite <- Qle_bool_iff; congruence);
        clear H
    end; lra.
Qed.

(** * The ledger *)

Section Ledger.

Implicit Types (db : database) (e : employee) (r : point_row).



Lemma history_of_insert db emp d pts rs nt fl k :
  history_of (fst (insert_point db emp d pts rs nt fl)) k
  = history_of db k
    ++ (if emp =? k
        then [mkpoint (snd (insert_point db emp d pts rs nt fl))
                emp d pts rs nt fl]
        else []).
Proof.
  unfold history_of, insert_point; cbn [fst snd points_history].
  rewrite filter_app; cbn [filter h_employee_id]. reflexivity.
Qed.


Lemma history_of_update db emp set k :
  history_of (update_employees db emp set) k = history_of db k.
Proof. reflexivity. Qed.

Lemma max_point_id_bound (rows : list point_row) r :
  In r rows -> point_id r <= max_point_id rows.
Proof.
  unfold max_point_id.
  induction rows as [|x rows IH]; cbn [In fold_right]; [tauto|].
  intros [->|H]; [lia | specialize (IH H); lia].
Qed.







End Ledger.

(** * The undo history *)


Lemma push_bounded (history : UndoHistory.t) ty data :
  (List.length history <= MAX_UNDO_HISTORY)%nat ->
  (List.length (UndoHistory.push history ty data) <= MAX_UNDO_HISTORY)%nat.
Proof.
  unfold UndoHistory.push. intros H.
  destruct (Nat.leb_spec MAX_UNDO_HISTORY (List.length history));
    rewrite length_app; cbn [List.length]; [|lia].
  unfold MAX_UNDO_HISTORY in *.
  destruct history; cbn [tl List.length] in *; lia.
Qed.

(** * Adding a point *)

(** What [_add_point] does once every check has passed. *)
Lemma add_point_accepted (self : AddPointsFrame) (form : point_form) emp d pts e0 :
  emp_sel form = Some emp -> emp <> 0 ->
  parse_us_to_iso (date_var form) = Some d ->
  allowed_points (point_var form) = Some pts ->
  is_empty (strip (reason_var form)) = false ->
  select_employee (conn self) emp = Some e0 ->
  exists ins,
    ins = insert_point (conn self) emp d pts (strip (reason_var form))
            (strip (note_text form)) (strip (flag_var form))
    /\ _add_point self form
       = (PointAdded,
          mkframe
            (update_employees (fst ins) emp (fun e =>
               mkemployee (employee_id e) (last_name e) (first_name e)
                 (Some (or_zero (point_total e) + pts)) (Some d)
                 (Some (fst (calc_rolloff_and_perfect d)))
                 (Some (snd (calc_rolloff_and_perfect d)))))
            (UndoHistory.push (undo_history self) "add_point"
               (mkundo (snd ins) emp pts (point_total e0)
                  (last_point_date e0)))).
Proof.
  intros Hsel Hnz Hd Hp Hr He. eexists; split; [reflexivity|].
  unfold _add_point. rewrite Hsel.
  destruct (Z.eqb_spec emp 0); [contradiction|].
  rewrite Hd, Hp, Hr, He.
  destruct (insert_point _ _ _ _ _ _ _) as [db1 pid].
  destruct (calc_rolloff_and_perfect d) as [ro pe]. reflexivity.
Qed.

(** [_add_point] either leaves the application as it was or adds. *)
Lemma add_point_cases (self : AddPointsFrame) (form : point_form) :
  snd (_add_point self form) = self
  \/ exists emp d pts e0,
       emp_sel form = Some emp /\ emp <> 0
       /\ parse_us_to_iso (date_var form) = Some d
       /\ allowed_points (point_var form) = Some pts
       /\ is_empty (strip (reason_var form)) = false
       /\ select_employee (conn self) emp = Some e0.
Proof.
  unfold _add_point.
  destruct (emp_sel form) as [emp|]; [|now left].
  destruct (Z.eqb_spec emp 0); [now left|].
  destruct (parse_us_to_iso (date_var form)) as [d|]; [|now left].
  destruct (allowed_points (point_var form)) as [pts|]; [|now left].
  destruct (is_empty (strip (reason_var form))) eqn:Hr; [now left|].
  destruct (select_employee (conn self) emp) as [e0|] eqn:He; [|now left].
  right. exists emp, d, pts, e0. repeat split; auto.
Qed.

(** C9.  An add-point request whose date text does not parse, or whose
    magnitude is not one of 0.5, 1.0 and 1.5, changes nothing: no ledger
    event is stored and no employee row or undo entry is touched.  With
    an employee selected it ends in the Invalid Date dialog when the date
    does not parse, and in the Invalid Points dialog otherwise. *)
Theorem add_point_rejects_invalid (self : AddPointsFrame) (form : point_form) :
  parse_us_to_iso (date_var form) = None
  \/ allowed_points (point_var form) = None ->
  snd (_add_point self form) = self
  /\ forall emp_id, emp_sel form = Some emp_id -> emp_id <> 0 ->
       fst (_add_point self form)
       = match parse_us_to_iso (date_var form) with
         | None => InvalidDate
         | Some _ => InvalidPoints
         end.
Proof.
  intros Hbad. unfold _add_point. split.
  - destruct (emp_sel form) as [emp|]; [|reflexivity].
    destruct (emp =? 0); [reflexivity|].
    destruct (parse_us_to_iso (date_var form)); [|reflexivity].
    destruct Hbad as [Hbad|Hbad]; [discriminate|]. now rewrite Hbad.
  - intros emp Hsel Hnz. rewrite Hsel.
    destruct (Z.eqb_spec emp 0); [contradiction|].
    destruct (parse_us_to_iso (date_var form)); [|reflexivity].
    destruct Hbad as [Hbad|Hbad]; [discriminate|]. now rewrite Hbad.
Qed.


(** * The roll-off loops *)

Section Loops.

Variables today_date perfect_date : date.

Lemma rolloff_loop_count fuel c k nr t k' nr' :
  rolloff_loop fuel today_date perfect_date c k nr = (t, k', nr') ->
  (k' = k /\ t = c /\ nr' = nr)
  \/ (k < k' /\ 0 < c /\ t = Z.max 0 (c - 100 * (k' - k))).
Proof.
  revert c k nr. induction fuel as [|fuel IH]; intros c k nr; cbn [rolloff_loop].
  - intros [= <- <- <-]. now left.
  - destruct (date_leb nr today_date && (0 <? c)) eqn:Hc.
    + apply andb_true_iff in Hc as [_ Hc%Z.ltb_lt].
      intros H. apply IH in H as [(-> & -> & ->)|(Hk & Hc1 & ->)]; right; lia.
    + intros [= <- <- <-]. now left.
Qed.




End Loops.

(** * One record of the batch *)

Section OneRecord.

Variable today_date : date.

Lemma expire_rec_total rec r0 t removed nr :
  expire_rec today_date rec r0 = (t, removed, nr) ->
  (removed = 0 /\ t = or_zero (point_total rec))
  \/ (0 < removed /\ t = Z.max 0 (or_zero (point_total rec) - 100 * removed)).
Proof.
  unfold expire_rec.
  destruct (0 <? or_zero (point_total rec)).
  - intros H. apply rolloff_loop_count in H as [(-> & -> & _)|(? & ? & ->)];
      [left | right]; split; auto; lia.
  - intros [= <- <- _]. now left.
Qed.



Lemma removed_of_nonneg rec : 0 <= removed_of today_date rec.
Proof.
  unfold removed_of. destruct (rolloff_date rec) as [r0|]; [|lia].
  destruct (expire_rec today_date rec r0) as [[t removed] nr] eqn:E.
  apply expire_rec_total in E. cbn [fst snd]. lia.
Qed.

Lemma touch_key rec e : employee_id (touch today_date rec e) = employee_id e.
Proof.
  unfold touch. destruct (rolloff_date rec) as [r0|]; [|reflexivity].
  destruct (expire_rec today_date rec r0) as [[t removed] nr].
  destruct (0 <? removed); [reflexivity|].
  destruct (negb (date_eqb r0 nr)); reflexivity.
Qed.

(** The total a run leaves in a row it deducts from. *)
Lemma touch_total_deducted e :
  0 < removed_of today_date e ->
  point_total (touch today_date e e)
  = Some (Z.max 0 (or_zero (point_total e) - 100 * removed_of today_date e)).
Proof.
  unfold touch, removed_of. destruct (rolloff_date e) as [r0|]; [|lia].
  destruct (expire_rec today_date e r0) as [[t removed] nr] eqn:E.
  cbn [fst snd]. apply expire_rec_total in E. intros Hpos.
  rewrite (proj2 (Z.ltb_lt _ _) Hpos). cbn [point_total]. f_equal. lia.
Qed.

Lemma touch_total_kept e :
  removed_of today_date e = 0 ->
  point_total (touch today_date e e) = point_total e.
Proof.
  unfold touch, removed_of. destruct (rolloff_date e) as [r0|]; [|reflexivity].
  destruct (expire_rec today_date e r0) as [[t removed] nr].
  cbn [fst snd]. intros ->. cbn.
  destruct (negb (date_eqb r0 nr)); reflexivity.
Qed.


End OneRecord.

(** * The batch *)

Section Batch.

Variables today_date sql_now : date.

Lemma map_others {A} (p : A -> bool) (f : A -> A) (l : list A) :
  (forall x, In x l -> p x = false) ->
  map (fun x => if p x then f x else x) l = l.
Proof.
  induction l as [|x l IH]; cbn [map]; intros H; [reflexivity|].
  rewrite (H x) by now left. rewrite IH; [reflexivity|].
  intros y Hy. apply H. now right.
Qed.

Lemma map_same {A} (p : A -> bool) (l : list A) :
  map (fun x => if p x then x else x) l = l.
Proof.
  induction l as [|x l IH]; cbn [map]; [reflexivity|].
  rewrite IH. now destruct (p x).
Qed.

Lemma expire_step_employees db log rec :
  employees (fst (expire_step today_date (db, log) rec))
  = map (fun e => if employee_id e =? employee_id rec
                  then touch today_date rec e else e) (employees db).
Proof.
  unfold expire_step, touch.
  destruct (rolloff_date rec) as [r0|];
    [|cbn [fst]; now rewrite map_same].
  destruct (expire_rec today_date rec r0) as [[t removed] nr].
  destruct (0 <? removed); [reflexivity|].
  destruct (negb (date_eqb r0 nr)); [reflexivity|].
  cbn [fst]. now rewrite map_same.
Qed.





Lemma run_employees (l pre : list employee) db log :
  employees db = pre ++ l ->
  (forall x y, In x pre -> In y l -> employee_id x <> employee_id y) ->
  NoDup (map employee_id l) ->
  employees
    (fst (fold_left (expire_step today_date) (filter (expired sql_now) l)
            (db, log)))
  = pre ++ map (expire_row today_date sql_now) l.
Proof.
  revert pre db log. induction l as [|e l IH]; intros pre db log Hdb Hpre Hnd;
    cbn [filter map]; [exact Hdb|].
  apply NoDup_cons_iff in Hnd as [Hnew Hnd]. cbn [map] in Hnew.
  assert (Hl : forall y, In y l -> employee_id y <> employee_id e).
  { intros y Hy Heq. apply Hnew. rewrite <- Heq. now apply in_map. }
  unfold expire_row at 1.
  destruct (expired sql_now e) eqn:He; cbn [fold_left].
  - pose proof (expire_step_employees db log e) as Hs.
    destruct (expire_step today_date (db, log) e) as [db1 log1].
    cbn [fst] in Hs.
    rewrite (IH (pre ++ [touch today_date e e]) db1 log1).
    + now rewrite <- app_assoc.
    + rewrite Hs, Hdb, map_app; cbn [map]. rewrite Z.eqb_refl.
      rewrite !map_others, <- app_assoc; [reflexivity| |].
      * intros y Hy. apply Z.eqb_neq. now apply Hl.
      * intros x Hx. apply Z.eqb_neq. apply Hpre; [exact Hx | now left].
    + intros x y Hx Hy. apply in_app_iff in Hx as [Hx|[<-|[]]].
      * apply Hpre; [exact Hx | now right].
      * rewrite touch_key. intros Heq. now apply (Hl y).
    + exact Hnd.
  - rewrite (IH (pre ++ [e]) db log).
    + now rewrite <- app_assoc.
    + now rewrite Hdb, <- app_assoc.
    + intros x y Hx Hy. apply in_app_iff in Hx as [Hx|[<-|[]]].
      * apply Hpre; [exact Hx | now right].
      * intros Heq. now apply (Hl y).
    + exact Hnd.
Qed.




Lemma auto_expire_employees db :
  unique_employee_ids db ->
  employees (fst (auto_expire_points today_date sql_now db))
  = map (expire_row today_date sql_now) (employees db).
Proof.
  intros Hnd. unfold auto_expire_points.
  apply (run_employees (employees db) [] db []);
    [reflexivity | intros x y [] | exact Hnd].
Qed.

End Batch.

(** * Due dates move forward *)

Section DueDates.

Implicit Types (a b d : date).







End DueDates.





(** C1.  The stored last point date against the latest date among the
    positive-magnitude events, in two runs of the program.  Employee 100
    gets 1.0 on 2025-01-10 and 0.5 on 2025-01-20, the batch runs on
    2025-04-01, and the 0.5 event is deleted in Manage Points: the stored
    date is then 2025-04-01, the date of the roll-off event, while the
    latest infraction is of 2025-01-10.  Employee 100 gets 1.0 on
    2025-03-10 and then 0.5 on 2025-01-05: the stored date is then
    2025-01-05, while the latest infraction is of 2025-03-10. *)
Theorem last_point_date_is_not_last_infraction :
  (let today := mkdate 2025 4 1 in
   let two :=
     after (after fresh (infraction "01-10-2025" 1))
       (infraction "01-20-2025" (1 # 2)) in
   let rolled := fst (auto_expire_points today today (conn two)) in
   let db := delete_selected rolled 100 2 in
   option_map last_point_date (select_employee db 100)
   = Some (Some (mkdate 2025 4 1))
   /\ last_infraction_date db 100 = Some (mkdate 2025 1 10))
  /\ (let db :=
        conn (after (after fresh (infraction "03-10-2025" 1))
                (infraction "01-05-2025" (1 # 2))) in
      option_map last_point_date (select_employee db 100)
      = Some (Some (mkdate 2025 1 5))
      /\ last_infraction_date db 100 = Some (mkdate 2025 3 10)).
Proof. vm_compute. repeat split. Qed.

(** C3.  Employee 100 gets 1.0 on 2025-01-15 and the batch runs on
    2026-01-01.  The employee is selected, the one point is taken, and
    the stored due date is 2025-08-01, still on or before the day of the
    run. *)
Theorem zeroed_employee_is_left_overdue :
  let today := mkdate 2026 1 1 in
  let db := conn (after fresh (infraction "01-15-2025" 1)) in
  let db' := fst (auto_expire_points today today db) in
  option_map (expired today) (select_employee db 100) = Some true
  /\ option_map point_total (select_employee db' 100) = Some (Some 0)
  /\ option_map rolloff_date (select_employee db' 100)
     = Some (Some (mkdate 2025 8 1))
  /\ date_leb (mkdate 2025 8 1) today = true.
Proof. vm_compute. repeat split. Qed.



(** * The theorems at work on the example *)

(** A table of one row has a unique key. *)
Ltac one_key :=
  unfold unique_employee_ids; cbn; constructor; [intros [] | constructor].




Lemma add_point_rejects_invalid_witness :
  let form := infraction "02-30-2025" 1 in
  parse_us_to_iso (date_var form) = None
  /\ snd (_add_point fresh form) = fresh
  /\ fst (_add_point fresh form) = InvalidDate.
Proof.
  cbv zeta.
  assert (H : parse_us_to_iso (date_var (infraction "02-30-2025" 1)) = None)
    by reflexivity.
  destruct (add_point_rejects_invalid fresh (infraction "02-30-2025" 1)
              (or_introl H)) as [Hs Hf].
  split; [exact H | split; [exact Hs |]].
  apply (Hf 100); [reflexivity | discriminate].
Defined.


Lemma status_for_total_bands_witness :
  _status_for_total (13 # 2) = "Critical"%string.
Proof.
  apply (proj1 (proj2 (status_for_total_bands (13 # 2)))).
  split; [discriminate | reflexivity].
Defined.

(** * Dates as text *)

Section DateText.

Implicit Types (k n y m : Z) (c sep : ascii) (s t : string).

Lemma digit_cases k :
  0 <= k <= 9 ->
  k = 0 \/ k = 1 \/ k = 2 \/ k = 3 \/ k = 4 \/ k = 5 \/ k = 6 \/ k = 7
  \/ k = 8 \/ k = 9.
Proof. lia. Qed.

Ltac each_digit k H :=
  destruct (digit_cases k H) as [?|[?|[?|[?|[?|[?|[?|[?|[?|?]]]]]]]]]; subst k.

(** [Some a = Some b -> _]: keep [a = b], as it is written. *)
Ltac some_eq :=
  match goal with
  | |- Some ?a = Some ?b -> _ =>
      let H := fresh in
      intros H; assert (a = b) by congruence; clear H
  end.

Lemma digit_digit_char k : 0 <= k <= 9 -> digit (digit_char k) = Some k.
Proof. intros H. each_digit k H; reflexivity. Qed.

Lemma digit_char_not_space k : 0 <= k <= 9 -> is_space (digit_char k) = false.
Proof. intros H. each_digit k H; reflexivity. Qed.

Lemma digit_char_not_dash k :
  0 <= k <= 9 -> Ascii.eqb (digit_char k) "-" = false.
Proof. intros H. each_digit k H; reflexivity. Qed.

Lemma digit_range c k : digit c = Some k -> 0 <= k <= 9.
Proof.
  unfold digit.
  destruct ((48 <=? Z.of_nat (nat_of_ascii c))
            && (Z.of_nat (nat_of_ascii c) <=? 57)) eqn:E; [|discriminate].
  intros [= <-]. apply andb_true_iff in E as [?%Z.leb_le ?%Z.leb_le]. lia.
Qed.

Lemma directive_m_range t m : directive_m t = Some m -> 1 <= m <= 12.
Proof.
  unfold directive_m.
  destruct t as [|a [|b [|? ?]]]; try discriminate.
  - destruct (digit a) as [x|] eqn:Ha; [|discriminate].
    apply digit_range in Ha.
    destruct (Z.leb_spec 1 x); [|discriminate]. some_eq; lia.
  - destruct (digit a) as [x|] eqn:Ha; [|discriminate].
    destruct (digit b) as [z|] eqn:Hb; [|discriminate].
    apply digit_range in Ha, Hb.
    destruct ((x =? 1) && (z <=? 2)) eqn:E1.
    + apply andb_true_iff in E1 as [?%Z.eqb_eq ?%Z.leb_le].
      some_eq; lia.
    + destruct ((x =? 0) && (1 <=? z)) eqn:E2; [|discriminate].
      apply andb_true_iff in E2 as [?%Z.eqb_eq ?%Z.leb_le].
      some_eq; lia.
Qed.

Lemma directive_d_range t n : directive_d t = Some n -> 1 <= n <= 31.
Proof.
  unfold directive_d.
  destruct t as [|a [|b [|? ?]]]; try discriminate.
  - destruct (digit a) as [x|] eqn:Ha; [|discriminate].
    apply digit_range in Ha.
    destruct (Z.leb_spec 1 x); [|discriminate]. some_eq; lia.
  - destruct (digit a) as [x|] eqn:Ha;
      (destruct (digit b) as [z|] eqn:Hb; [|discriminate]);
      apply digit_range in Hb.
    + apply digit_range in Ha.
      destruct ((x =? 3) && (z <=? 1)) eqn:E1.
      { apply andb_true_iff in E1 as [?%Z.eqb_eq ?%Z.leb_le].
        some_eq; lia. }
      destruct ((1 <=? x) && (x <=? 2)) eqn:E2.
      { apply andb_true_iff in E2 as [?%Z.leb_le ?%Z.leb_le].
        some_eq; lia. }
      destruct ((x =? 0) && (1 <=? z)) eqn:E3; [|discriminate].
      apply andb_true_iff in E3 as [?%Z.eqb_eq ?%Z.leb_le].
      some_eq; lia.
    + destruct (Ascii.eqb a " " && (1 <=? z)) eqn:E; [|discriminate].
      apply andb_true_iff in E as [_ ?%Z.leb_le]. some_eq; lia.
Qed.

Lemma directive_Y_range t y : directive_Y t = Some y -> 0 <= y <= 9999.
Proof.
  unfold directive_Y.
  destruct t as [|a [|b [|c [|d [|? ?]]]]]; try discriminate.
  destruct (digit a) eqn:Ha; [|discriminate].
  destruct (digit b) eqn:Hb; [|discriminate].
  destruct (digit c) eqn:Hc; [|discriminate].
  destruct (digit d) eqn:Hd; [|discriminate].
  apply digit_range in Ha, Hb, Hc, Hd. some_eq; lia.
Qed.

(** [datetime._days_in_month] is the last day of the month under the
    Gregorian rule. *)
Lemma days_in_month_last_day y m :
  1 <= m <= 12 -> days_in_month y m = last_day_of_month y m.
Proof.
  intros Hm. unfold days_in_month, last_day_of_month.
  rewrite leap_test_gregorian.
  destruct (month_cases m Hm) as
    [E|[E|[E|[E|[E|[E|[E|[E|[E|[E|[E|E]]]]]]]]]]]; subst m;
    reflexivity.
Qed.

Lemma checked_date_valid y m n :
  1 <= m <= 12 -> 1 <= n -> 0 <= y <= 9999 ->
  (1 <=? y) && (n <=? days_in_month y m) = true ->
  valid_date (mkdate y m n) /\ 1 <= y <= 9999.
Proof.
  intros Hm Hn Hy H. apply andb_true_iff in H as [H1%Z.leb_le H2%Z.leb_le].
  rewrite days_in_month_last_day in H2 by exact Hm.
  unfold valid_date; cbn [year month day]. lia.
Qed.

Lemma strptime_mdY_valid sep s d :
  strptime_mdY sep s = Some d -> valid_date d /\ 1 <= year d <= 9999.
Proof.
  unfold strptime_mdY.
  destruct (split_sep sep s) as [[mt rest]|]; [|discriminate].
  destruct (split_sep sep rest) as [[dt yt]|]; [|discriminate].
  destruct (directive_m mt) as [m|] eqn:Hm; [|discriminate].
  destruct (directive_d dt) as [n|] eqn:Hn; [|discriminate].
  destruct (directive_Y yt) as [y|] eqn:Hy; [|discriminate].
  destruct ((1 <=? y) && (n <=? days_in_month y m)) eqn:Hc; [|discriminate].
  intros [= <-]. apply directive_m_range in Hm. apply directive_d_range in Hn.
  apply directive_Y_range in Hy. apply checked_date_valid; auto; lia.
Qed.

Lemma strptime_Ymd_valid sep s d :
  strptime_Ymd sep s = Some d -> valid_date d /\ 1 <= year d <= 9999.
Proof.
  unfold strptime_Ymd.
  destruct (split_sep sep s) as [[yt rest]|]; [|discriminate].
  destruct (split_sep sep rest) as [[mt dt]|]; [|discriminate].
  destruct (directive_Y yt) as [y|] eqn:Hy; [|discriminate].
  destruct (directive_m mt) as [m|] eqn:Hm; [|discriminate].
  destruct (directive_d dt) as [n|] eqn:Hn; [|discriminate].
  destruct ((1 <=? y) && (n <=? days_in_month y m)) eqn:Hc; [|discriminate].
  intros [= <-]. apply directive_m_range in Hm. apply directive_d_range in Hn.
  apply directive_Y_range in Hy. apply checked_date_valid; auto; lia.
Qed.

(** Rendering, then reading *)

Lemma split_two_digits sep n rest :
  0 <= n <= 99 -> (sep = "-" \/ sep = "/")%char ->
  split_sep sep (two_digits n ++ String sep rest)
  = Some (two_digits n, rest).
Proof.
  intros Hn Hsep. unfold two_digits. cbn [append split_sep].
  assert (H1 : 0 <= n / 10 mod 10 <= 9)
    by (pose proof (Z.mod_pos_bound (n / 10) 10); lia).
  assert (H2 : 0 <= n mod 10 <= 9)
    by (pose proof (Z.mod_pos_bound n 10); lia).
  assert (Hd : forall k, 0 <= k <= 9 -> Ascii.eqb (digit_char k) sep = false).
  { intros k Hk. destruct Hsep; subst sep; each_digit k Hk; reflexivity. }
  rewrite !Hd by assumption. rewrite Ascii.eqb_refl. reflexivity.
Qed.

Lemma split_four_digits sep n rest :
  0 <= n <= 9999 -> (sep = "-" \/ sep = "/")%char ->
  split_sep sep (four_digits n ++ String sep rest)
  = Some (four_digits n, rest).
Proof.
  intros Hn Hsep. unfold four_digits, two_digits. cbn [append split_sep].
  assert (Hd : forall k, Ascii.eqb (digit_char (k mod 10)) sep = false).
  { intros k. pose proof (Z.mod_pos_bound k 10 ltac:(lia)) as Hk.
    set (j := k mod 10) in *. clearbody j.
    assert (Hj : 0 <= j <= 9) by lia.
    destruct Hsep; subst sep; each_digit j Hj; reflexivity. }
  rewrite !Hd. rewrite Ascii.eqb_refl. reflexivity.
Qed.

Lemma directive_m_two_digits m :
  1 <= m <= 12 -> directive_m (two_digits m) = Some m.
Proof.
  intros Hm.
  destruct (month_cases m Hm) as
    [E|[E|[E|[E|[E|[E|[E|[E|[E|[E|[E|E]]]]]]]]]]]; subst m; reflexivity.
Qed.

Lemma directive_d_two_digits n :
  1 <= n <= 31 -> directive_d (two_digits n) = Some n.
Proof.
  intros Hn. unfold directive_d, two_digits.
  assert (H1 : 0 <= n / 10 mod 10 <= 9)
    by (pose proof (Z.mod_pos_bound (n / 10) 10); lia).
  assert (H2 : 0 <= n mod 10 <= 9)
    by (pose proof (Z.mod_pos_bound n 10); lia).
  rewrite !digit_digit_char by assumption.
  assert (n / 10 mod 10 = n / 10) as ->
    by (apply Z.mod_small; Z.div_mod_to_equations; lia).
  pose proof (Z.div_mod n 10 ltac:(lia)).
  destruct (Z.eqb_spec (n / 10) 3); cbn [andb].
  - destruct (Z.leb_spec (n mod 10) 1); [f_equal; lia | lia].
  - destruct (Z.leb_spec 1 (n / 10)); cbn [andb].
    + destruct (Z.leb_spec (n / 10) 2); [f_equal; lia | lia].
    + destruct (Z.eqb_spec (n / 10) 0); cbn [andb]; [|lia].
      destruct (Z.leb_spec 1 (n mod 10)); [f_equal; lia | lia].
Qed.

Lemma directive_Y_four_digits y :
  0 <= y <= 9999 -> directive_Y (four_digits y) = Some y.
Proof.
  intros Hy. unfold directive_Y, four_digits, two_digits.
  assert (Hd : forall k, digit (digit_char (k mod 10)) = Some (k mod 10)).
  { intros k. apply digit_digit_char.
    pose proof (Z.mod_pos_bound k 10); lia. }
  rewrite !Hd. f_equal. Z.div_mod_to_equations. lia.
Qed.

Lemma lstrip_digit k t :
  0 <= k <= 9 -> lstrip (String (digit_char k) t) = String (digit_char k) t.
Proof. intros Hk. cbn [lstrip]. now rewrite digit_char_not_space. Qed.

Lemma rstrip_ends_unspaced s c :
  is_space c = false ->
  rstrip (s ++ String c EmptyString) = (s ++ String c EmptyString)%string.
Proof.
  intros Hc. induction s as [|a s IH]; cbn [append rstrip].
  - now rewrite Hc.
  - rewrite IH. destruct s; reflexivity.
Qed.

End DateText.

Section DateTextTheorems.

Lemma strip_between (c c' : ascii) (s : string) :
  is_space c = false -> is_space c' = false ->
  strip (String c (s ++ String c' EmptyString))
  = String c (s ++ String c' EmptyString).
Proof.
  intros Hc Hc'. unfold strip. cbn [lstrip]. rewrite Hc.
  apply (rstrip_ends_unspaced (String c s) c' Hc').
Qed.

Lemma mod10_digit k : 0 <= k mod 10 <= 9.
Proof. pose proof (Z.mod_pos_bound k 10); lia. Qed.

Lemma strip_strftime_mdY (d : date) :
  strip (strftime_mdY d) = strftime_mdY d.
Proof.
  unfold strftime_mdY, four_digits, two_digits. cbn [append].
  apply (strip_between _ _
           (String _ (String _ (String _ (String _ (String _ (String _
              (String _ (String _ EmptyString)))))))));
    apply digit_char_not_space, mod10_digit.
Qed.

Lemma strip_isoformat (d : date) : strip (isoformat d) = isoformat d.
Proof.
  unfold isoformat, four_digits, two_digits. cbn [append].
  apply (strip_between _ _
           (String _ (String _ (String _ (String _ (String _ (String _
              (String _ (String _ EmptyString)))))))));
    apply digit_char_not_space, mod10_digit.
Qed.

Lemma valid_date_checked (d : date) :
  valid_date d -> 1 <= year d ->
  (1 <=? year d) && (day d <=? days_in_month (year d) (month d)) = true.
Proof.
  intros [Hm Hd] Hy. rewrite days_in_month_last_day by exact Hm.
  apply andb_true_iff; split; apply Z.leb_le; lia.
Qed.

Lemma valid_date_day_31 (d : date) : valid_date d -> 1 <= day d <= 31.
Proof.
  intros [Hm Hd].
  pose proof (last_day_of_month_range (year d) (month d) Hm). lia.
Qed.

Lemma strptime_mdY_strftime (d : date) :
  valid_date d -> 1 <= year d <= 9999 ->
  strptime_mdY "-" (strftime_mdY d) = Some d.
Proof.
  intros Hv Hy. pose proof (valid_date_day_31 d Hv) as Hd.
  pose proof Hv as [Hm _].
  unfold strptime_mdY, strftime_mdY. cbn [append].
  rewrite split_two_digits by (auto; lia). cbv beta iota.
  rewrite split_two_digits by (auto; lia). cbv beta iota.
  rewrite directive_m_two_digits, directive_d_two_digits,
    directive_Y_four_digits by lia.
  rewrite valid_date_checked by (auto; lia). now destruct d.
Qed.

Lemma strptime_Ymd_isoformat (d : date) :
  valid_date d -> 1 <= year d <= 9999 ->
  strptime_Ymd "-" (isoformat d) = Some d.
Proof.
  intros Hv Hy. pose proof (valid_date_day_31 d Hv) as Hd.
  pose proof Hv as [Hm _].
  unfold strptime_Ymd, isoformat. cbn [append].
  rewrite split_four_digits by (auto; lia). cbv beta iota.
  rewrite split_two_digits by (auto; lia). cbv beta iota.
  rewrite directive_m_two_digits, directive_d_two_digits,
    directive_Y_four_digits by lia.
  rewrite valid_date_checked by (auto; lia). now destruct d.
Qed.

Lemma parse_strftime (d : date) :
  valid_date d -> 1 <= year d <= 9999 ->
  parse_us_to_iso (strftime_mdY d) = Some d.
Proof.
  intros Hv Hy. unfold parse_us_to_iso. rewrite strip_strftime_mdY.
  rewrite strptime_mdY_strftime by assumption. reflexivity.
Qed.

End DateTextTheorems.

(** X1.  Whatever text [parse_us_to_iso] accepts, the date it returns is
    a real calendar day with a year from 1 to 9999: the day exists in its
    month under the Gregorian rule. *)
Theorem parse_us_to_iso_valid (s : string) (d : date) :
  parse_us_to_iso s = Some d -> valid_date d /\ 1 <= year d <= 9999.
Proof.
  unfold parse_us_to_iso.
  destruct (is_empty (strip s)); [discriminate|].
  destruct (strptime_mdY "-" (strip s)) as [d'|] eqn:E.
  - intros [= <-]. exact (strptime_mdY_valid _ _ _ E).
  - apply strptime_mdY_valid.
Qed.

Lemma parse_us_to_iso_valid_witness :
  parse_us_to_iso " 2/29/2024 " = Some (mkdate 2024 2 29)
  /\ valid_date (mkdate 2024 2 29).
Proof.
  assert (H : parse_us_to_iso " 2/29/2024 " = Some (mkdate 2024 2 29))
    by reflexivity.
  split; [exact H | exact (proj1 (parse_us_to_iso_valid _ _ H))].
Defined.

(** X2.  A valid date with a four-digit year, shown by [ymd_to_us] as
    MM-DD-YYYY, is read back by [parse_us_to_iso] as the same date; and
    [ymd_to_us] shows the ISO text of the date as it shows the date. *)
Theorem displayed_date_parses_back (d : date) :
  valid_date d -> 1000 <= year d <= 9999 ->
  parse_us_to_iso (ymd_to_us (IsoDate d)) = Some d
  /\ ymd_to_us (IsoText (isoformat d)) = ymd_to_us (IsoDate d).
Proof.
  intros Hv Hy. split.
  - apply parse_strftime; [exact Hv | lia].
  - unfold ymd_to_us.
    replace (is_empty (isoformat d)) with false by reflexivity.
    rewrite strip_isoformat, strptime_Ymd_isoformat by (auto; lia).
    reflexivity.
Qed.

Lemma displayed_date_parses_back_witness :
  valid_date (mkdate 2024 2 29)
  /\ parse_us_to_iso (ymd_to_us (IsoDate (mkdate 2024 2 29)))
     = Some (mkdate 2024 2 29).
Proof.
  assert (H : valid_date (mkdate 2024 2 29)).
  { unfold valid_date; vm_compute. repeat split; discriminate. }
  split; [exact H|].
  apply (displayed_date_parses_back _ H). cbn [year]. lia.
Defined.

Section CalendarMore.

Implicit Types (a b d : date) (n : Z).






End CalendarMore.







(** * More on the ledger and the undo history *)

Section LedgerMore.

Implicit Types (db : database) (e : employee) (r : point_row).

(** What an accepted add was given. *)
Lemma add_point_added (self : AddPointsFrame) (form : point_form) :
  fst (_add_point self form) = PointAdded ->
  exists emp d pts e0,
    emp_sel form = Some emp /\ emp <> 0
    /\ parse_us_to_iso (date_var form) = Some d
    /\ allowed_points (point_var form) = Some pts
    /\ is_empty (strip (reason_var form)) = false
    /\ select_employee (conn self) emp = Some e0.
Proof.
  unfold _add_point.
  destruct (emp_sel form) as [emp|]; [|discriminate].
  destruct (Z.eqb_spec emp 0); [discriminate|].
  destruct (parse_us_to_iso (date_var form)) as [d|]; [|discriminate].
  destruct (allowed_points (point_var form)) as [pts|]; [|discriminate].
  destruct (is_empty (strip (reason_var form))) eqn:Hr; [discriminate|].
  destruct (select_employee (conn self) emp) as [e0|] eqn:He; [|discriminate].
  intros _. exists emp, d, pts, e0. repeat split; auto.
Qed.

Lemma insert_point_id db emp d pts rs nt fl :
  sqlite_sequence db < snd (insert_point db emp d pts rs nt fl)
  /\ max_point_id (points_history db)
     < snd (insert_point db emp d pts rs nt fl)
  /\ sqlite_sequence (fst (insert_point db emp d pts rs nt fl))
     = snd (insert_point db emp d pts rs nt fl).
Proof. unfold insert_point; cbn [fst snd sqlite_sequence]. lia. Qed.

Lemma insert_point_ids_ok db emp d pts rs nt fl :
  event_ids_ok db -> event_ids_ok (fst (insert_point db emp d pts rs nt fl)).
Proof.
  intros [Hnd Hle].
  pose proof (insert_point_id db emp d pts rs nt fl) as (Hs & Hm & Hq).
  unfold event_ids_ok. rewrite Hq.
  unfold insert_point in *; cbn [fst snd points_history] in *.
  split.
  - rewrite map_app; cbn [map point_id].
    apply NoDup_app; [exact Hnd | repeat constructor; intros [] | ].
    intros x Hx [<-|[]]. apply in_map_iff in Hx as (r & Hr & Hin).
    pose proof (max_point_id_bound _ _ Hin). lia.
  - intros r Hr. apply in_app_iff in Hr as [Hr|[<-|[]]].
    + specialize (Hle r Hr). lia.
    + cbn [point_id]. lia.
Qed.

(** Rows with distinct keys keep distinct keys when some are dropped. *)
Lemma filter_keeps_distinct {T K} (key : T -> K) (keep : T -> bool)
    (rows : list T) :
  NoDup (map key rows) -> NoDup (map key (filter keep rows)).
Proof.
  intros Hnd. induction rows as [|x rows IH]; cbn [map filter] in *;
    [constructor|].
  apply NoDup_cons_iff in Hnd as [Hx Hrows].
  destruct (keep x); [|auto]. cbn [map]. apply NoDup_cons; [|auto].
  intros Hin. apply Hx. apply in_map_iff in Hin as (y & Hy & Hin).
  apply filter_In in Hin as [Hin _]. apply in_map_iff. eauto.
Qed.

Lemma delete_point_ids_ok db pid :
  event_ids_ok db -> event_ids_ok (delete_point db pid).
Proof.
  intros [Hnd Hle]. unfold event_ids_ok, delete_point.
  cbn [points_history sqlite_sequence]. split.
  - now apply filter_keeps_distinct.
  - intros r Hr. apply filter_In in Hr as [Hr _]. auto.
Qed.

Lemma recompute_keeps_ledger db emp :
  points_history (recompute_employee_after_change db emp) = points_history db
  /\ sqlite_sequence (recompute_employee_after_change db emp)
     = sqlite_sequence db.
Proof.
  unfold recompute_employee_after_change.
  destruct (max_point_date (history_of db emp)) as [d|];
    [destruct (calc_rolloff_and_perfect d)|]; split; reflexivity.
Qed.

Lemma recompute_ids_ok db emp :
  event_ids_ok db -> event_ids_ok (recompute_employee_after_change db emp).
Proof.
  unfold event_ids_ok.
  destruct (recompute_keeps_ledger db emp) as [-> ->]. auto.
Qed.

Lemma expire_step_ids_ok today_date db log rec :
  event_ids_ok db ->
  event_ids_ok (fst (expire_step today_date (db, log) rec))
  /\ sqlite_sequence db
     <= sqlite_sequence (fst (expire_step today_date (db, log) rec)).
Proof.
  intros Hok. unfold expire_step.
  destruct (rolloff_date rec) as [r0|]; [|cbn [fst]; split; [auto|lia]].
  destruct (expire_rec today_date rec r0) as [[t removed] nr].
  destruct (0 <? removed).
  - cbn [fst]. split.
    + apply insert_point_ids_ok. exact Hok.
    + match goal with
      | |- _ <= sqlite_sequence (fst (insert_point ?d ?e ?dt ?p ?a ?b ?c)) =>
          pose proof (insert_point_id d e dt p a b c) as (H1 & _ & H3)
      end.
      rewrite H3. cbn [update_employees sqlite_sequence] in H1. lia.
  - destruct (negb (date_eqb r0 nr)); cbn [fst]; split; auto; try lia.
    cbn [update_employees sqlite_sequence]. lia.
Qed.

Lemma run_ids_ok today_date recs db log :
  event_ids_ok db ->
  event_ids_ok (fst (fold_left (expire_step today_date) recs (db, log)))
  /\ sqlite_sequence db
     <= sqlite_sequence
          (fst (fold_left (expire_step today_date) recs (db, log))).
Proof.
  revert db log. induction recs as [|rec recs IH]; intros db log Hok;
    cbn [fold_left]; [cbn [fst]; split; [auto|lia]|].
  pose proof (expire_step_ids_ok today_date db log rec Hok) as [H1 H2].
  destruct (expire_step today_date (db, log) rec) as [db1 log1].
  cbn [fst] in *. destruct (IH db1 log1 H1) as [H3 H4]. split; [auto|lia].
Qed.

End LedgerMore.

Section UndoMore.

Implicit Types (db : database) (e : employee) (r : point_row).


(** The state an accepted add leaves. *)
Lemma add_point_state (self : AddPointsFrame) (form : point_form) :
  fst (_add_point self form) = PointAdded ->
  exists r a,
    points_history (conn (snd (_add_point self form)))
    = points_history (conn self) ++ [r]
    /\ max_point_id (points_history (conn self)) < point_id r
    /\ sqlite_sequence (conn self) < point_id r
    /\ sqlite_sequence (conn (snd (_add_point self form))) = point_id r
    /\ undo_history (snd (_add_point self form))
       = trimmed (undo_history self) ++ [a]
    /\ action_type a = "add_point"%string
    /\ u_point_id (action_data a) = point_id r
    /\ emp_sel form = Some (u_emp_id (action_data a))
    /\ h_employee_id r = u_emp_id (action_data a).
Proof.
  intros Hadd.
  destruct (add_point_added self form Hadd)
    as (emp & d & pts & e0 & Hsel & Hnz & Hd & Hp & Hr & He).
  destruct (add_point_accepted self form emp d pts e0 Hsel Hnz Hd Hp Hr He)
    as (ins & Hins & ->).
  pose proof (insert_point_id (conn self) emp d pts (strip (reason_var form))
                (strip (note_text form)) (strip (flag_var form)))
    as (Hs & Hm & Hq).
  rewrite <- Hins in Hs, Hm, Hq. cbn [snd conn undo_history].
  exists (mkpoint (snd ins) emp d pts (strip (reason_var form))
            (strip (note_text form)) (strip (flag_var form))).
  eexists. cbn [point_id h_employee_id].
  split; [subst ins; reflexivity|].
  split; [exact Hm|]. split; [exact Hs|]. split; [exact Hq|].
  split; [reflexivity|]. cbn [action_type action_data u_point_id u_emp_id].
  auto.
Qed.




End UndoMore.

(** X6.  The undo history never holds more than [MAX_UNDO_HISTORY]
    entries: [_add_point] keeps the bound, [_undo_point] never lengthens
    the history, and after an accepted add there is something to undo. *)
Theorem undo_history_stays_bounded (self : AddPointsFrame)
    (form : point_form) :
  (List.length (undo_history self) <= MAX_UNDO_HISTORY)%nat ->
  (List.length (undo_history (snd (_add_point self form)))
   <= MAX_UNDO_HISTORY)%nat
  /\ (List.length (undo_history (snd (_undo_point self)))
      <= List.length (undo_history self))%nat
  /\ (fst (_add_point self form) = PointAdded ->
      UndoHistory.has_undo (undo_history (snd (_add_point self form)))
      = true).
Proof.
  intros Hb. split; [|split].
  - destruct (add_point_cases self form)
      as [-> | (emp & d & pts & e0 & Hsel & Hnz & Hd & Hp & Hr & He)];
      [exact Hb|].
    destruct (add_point_accepted self form emp d pts e0 Hsel Hnz Hd Hp Hr He)
      as (ins & _ & ->).
    cbn [snd undo_history]. now apply push_bounded.
  - unfold _undo_point, UndoHistory.pop.
    destruct (rev (undo_history self)) as [|a r] eqn:E; [cbn; lia|].
    assert (List.length (rev r) < List.length (undo_history self))%nat.
    { rewrite length_rev, <- (length_rev (undo_history self)), E. cbn. lia. }
    destruct (String.eqb (action_type a) "add_point");
      cbn [snd undo_history]; lia.
  - intros Hadd.
    destruct (add_point_state self form Hadd) as (r & a & _ & _ & _ & _ & -> & _).
    unfold UndoHistory.has_undo. rewrite length_app; cbn [List.length].
    apply Nat.ltb_lt. lia.
Qed.

Lemma undo_history_stays_bounded_witness :
  (List.length (undo_history fresh) <= MAX_UNDO_HISTORY)%nat
  /\ (List.length
        (undo_history (snd (_add_point fresh (infraction "01-10-2025" 1))))
      <= MAX_UNDO_HISTORY)%nat.
Proof.
  assert (H : (List.length (undo_history fresh) <= MAX_UNDO_HISTORY)%nat)
    by (unfold MAX_UNDO_HISTORY; cbn; lia).
  split; [exact H|].
  exact (proj1 (undo_history_stays_bounded fresh
                  (infraction "01-10-2025" 1) H)).
Defined.





Section RowsMore.

Implicit Types (db : database) (e : employee) (r : point_row).

Lemma other_rows_update db emp set :
  (forall e, employee_id (set e) = employee_id e) ->
  other_rows (update_employees db emp set) emp = other_rows db emp.
Proof.
  intros Hkey. unfold other_rows, update_employees; cbn [employees].
  induction (employees db) as [|e l IH]; cbn [map filter]; [reflexivity|].
  destruct (Z.eqb_spec (employee_id e) emp) as [He|He].
  - rewrite Hkey, He, Z.eqb_refl. cbn [negb]. exact IH.
  - destruct (Z.eqb_spec (employee_id e) emp); [contradiction|].
    cbn [negb]. now rewrite IH.
Qed.

Lemma keys_update db emp set :
  (forall e, employee_id (set e) = employee_id e) ->
  map employee_id (employees (update_employees db emp set))
  = map employee_id (employees db).
Proof.
  intros Hkey. unfold update_employees; cbn [employees].
  rewrite map_map. apply map_ext. intros e.
  destruct (employee_id e =? emp); auto.
Qed.

Lemma recompute_other_rows db emp :
  other_rows (recompute_employee_after_change db emp) emp = other_rows db emp
  /\ map employee_id (employees (recompute_employee_after_change db emp))
     = map employee_id (employees db).
Proof.
  unfold recompute_employee_after_change.
  destruct (max_point_date (history_of db emp)) as [d|];
    [destruct (calc_rolloff_and_perfect d)|];
    split; (apply other_rows_update || apply keys_update); reflexivity.
Qed.


End RowsMore.

(** X9.  Ledger ids stay distinct and at most the last id given out
    through adds, undos, deletes in Manage Points and roll-off runs, and
    that last id never goes down; an accepted add appends one row, with
    an id above every id given out before. *)
Theorem event_ids_stay_fresh (self : AddPointsFrame) (form : point_form)
    (emp pid : Z) (today_date sql_now : date) :
  event_ids_ok (conn self) ->
  (event_ids_ok (conn (snd (_add_point self form)))
   /\ sqlite_sequence (conn self)
      <= sqlite_sequence (conn (snd (_add_point self form))))
  /\ (event_ids_ok (conn (snd (_undo_point self)))
      /\ sqlite_sequence (conn (snd (_undo_point self)))
         = sqlite_sequence (conn self))
  /\ (event_ids_ok (delete_selected (conn self) emp pid)
      /\ sqlite_sequence (delete_selected (conn self) emp pid)
         = sqlite_sequence (conn self))
  /\ (event_ids_ok (fst (auto_expire_points today_date sql_now (conn self)))
      /\ sqlite_sequence (conn self)
         <= sqlite_sequence
              (fst (auto_expire_points today_date sql_now (conn self))))
  /\ (fst (_add_point self form) = PointAdded ->
      exists r,
        points_history (conn (snd (_add_point self form)))
        = points_history (conn self) ++ [r]
        /\ sqlite_sequence (conn self) < point_id r).
Proof.
  intros Hok. split; [|split; [|split; [|split]]].
  - destruct (add_point_cases self form)
      as [-> | (e1 & d & pts & e0 & Hsel & Hnz & Hd & Hp & Hr & He)];
      [split; [exact Hok | lia]|].
    destruct (add_point_accepted self form e1 d pts e0 Hsel Hnz Hd Hp Hr He)
      as (ins & Hins & ->).
    cbn [snd conn]. subst ins.
    pose proof (insert_point_ids_ok (conn self) e1 d pts
                  (strip (reason_var form)) (strip (note_text form))
                  (strip (flag_var form)) Hok) as Hi.
    pose proof (insert_point_id (conn self) e1 d pts
                  (strip (reason_var form)) (strip (note_text form))
                  (strip (flag_var form))) as (Hs & _ & Hq).
    split; [exact Hi|]. cbn [update_employees sqlite_sequence].
    rewrite Hq. lia.
  - unfold _undo_point.
    destruct (UndoHistory.pop (undo_history self)) as [[a|] h];
      [|split; [exact Hok | reflexivity]].
    destruct (String.eqb (action_type a) "add_point"); cbn [snd conn];
      [|split; [exact Hok | reflexivity]].
    split.
    + apply recompute_ids_ok, delete_point_ids_ok, Hok.
    + now destruct (recompute_keeps_ledger
                      (delete_point (conn self) (u_point_id (action_data a)))
                      (u_emp_id (action_data a))) as [_ ->].
  - unfold delete_selected. split.
    + apply recompute_ids_ok, delete_point_ids_ok, Hok.
    + now destruct (recompute_keeps_ledger (delete_point (conn self) pid) emp)
        as [_ ->].
  - unfold auto_expire_points. now apply run_ids_ok.
  - intros Hadd.
    destruct (add_point_state self form Hadd)
      as (r & a & Hrows & _ & Hseq & _).
    exists r. auto.
Qed.

Lemma event_ids_stay_fresh_witness :
  event_ids_ok (conn fresh)
  /\ event_ids_ok
       (conn (snd (_add_point fresh (infraction "01-10-2025" 1)))).
Proof.
  assert (H : event_ids_ok (conn fresh)).
  { split; [constructor | intros r []]. }
  split; [exact H|].
  exact (proj1 (proj1 (event_ids_stay_fresh fresh
                         (infraction "01-10-2025" 1) 100 1
                         (mkdate 2025 4 1) (mkdate 2025 4 1) H))).
Defined.

(** X10.  Adding a point, deleting an event in Manage Points and
    undoing an add change no row of another employee and no key of the
    table; an add leaves the ledger of every other employee as it was. *)
Theorem other_employees_untouched (self : AddPointsFrame)
    (form : point_form) (emp pid : Z) :
  (emp_sel form = Some emp ->
   other_rows (conn (snd (_add_point self form))) emp
   = other_rows (conn self) emp
   /\ map employee_id (employees (conn (snd (_add_point self form))))
      = map employee_id (employees (conn self))
   /\ forall k, k <> emp ->
        history_of (conn (snd (_add_point self form))) k
        = history_of (conn self) k)
  /\ (other_rows (delete_selected (conn self) emp pid) emp
      = other_rows (conn self) emp
      /\ map employee_id (employees (delete_selected (conn self) emp pid))
         = map employee_id (employees (conn self)))
  /\ (forall action history,
        UndoHistory.pop (undo_history self) = (Some action, history) ->
        other_rows (conn (snd (_undo_point self)))
          (u_emp_id (action_data action))
        = other_rows (conn self) (u_emp_id (action_data action))
        /\ map employee_id (employees (conn (snd (_undo_point self))))
           = map employee_id (employees (conn self))).
Proof.
  split; [|split].
  - intros Hsel.
    destruct (add_point_cases self form)
      as [-> | (e1 & d & pts & e0 & Hsel' & Hnz & Hd & Hp & Hr & He)];
      [auto|].
    assert (e1 = emp) as -> by congruence.
    destruct (add_point_accepted self form emp d pts e0 Hsel Hnz Hd Hp Hr He)
      as (ins & Hins & ->).
    cbn [snd conn]. subst ins. split; [|split].
    + now rewrite other_rows_update.
    + now rewrite keys_update.
    + intros k Hk. rewrite history_of_update, history_of_insert.
      destruct (Z.eqb_spec emp k); [congruence | apply app_nil_r].
  - unfold delete_selected.
    destruct (recompute_other_rows (delete_point (conn self) pid) emp)
      as [-> ->]. split; reflexivity.
  - intros action history Hpop. unfold _undo_point. rewrite Hpop.
    destruct (String.eqb (action_type action) "add_point"); cbn [snd conn];
      [|split; reflexivity].
    destruct (recompute_other_rows
                (delete_point (conn self) (u_point_id (action_data action)))
                (u_emp_id (action_data action))) as [-> ->].
    split; reflexivity.
Qed.



(** * More on the batch *)

Section BatchMore.

Variables today_date sql_now : date.

Implicit Types (db : database) (e rec : employee).

Lemma Forall2_map_same {A} (R : A -> A -> Prop) (f : A -> A) (l : list A) :
  (forall x, In x l -> R x (f x)) -> Forall2 R l (map f l).
Proof.
  induction l as [|x l IH]; cbn [map]; intros H; constructor.
  - apply H. now left.
  - apply IH. intros y Hy. apply H. now right.
Qed.

Lemma removed_needs_points rec :
  0 < removed_of today_date rec -> 0 < or_zero (point_total rec).
Proof.
  unfold removed_of, expire_rec.
  destruct (rolloff_date rec) as [r0|]; [|lia].
  destruct (Z.ltb_spec 0 (or_zero (point_total rec))); [auto|].
  cbn [fst snd]. lia.
Qed.

(** A run writes the total and the due date of a row, nothing else. *)
Lemma touch_fields rec e :
  employee_id (touch today_date rec e) = employee_id e
  /\ last_name (touch today_date rec e) = last_name e
  /\ first_name (touch today_date rec e) = first_name e
  /\ last_point_date (touch today_date rec e) = last_point_date e
  /\ perfect_attendance (touch today_date rec e) = perfect_attendance e.
Proof.
  unfold touch. destruct (rolloff_date rec) as [r0|]; [|now repeat split].
  destruct (expire_rec today_date rec r0) as [[t removed] nr].
  destruct (0 <? removed); [now repeat split|].
  destruct (negb (date_eqb r0 nr)); now repeat split.
Qed.

Lemma touch_total_bounds e :
  or_zero (point_total (touch today_date e e)) <= or_zero (point_total e)
  /\ (0 <= or_zero (point_total e) ->
      0 <= or_zero (point_total (touch today_date e e))).
Proof.
  pose proof (removed_of_nonneg today_date e) as Hnn.
  destruct (Z.eq_dec (removed_of today_date e) 0) as [Hz|Hnz].
  - rewrite touch_total_kept by exact Hz. lia.
  - rewrite touch_total_deducted by lia. cbn [or_zero].
    pose proof (removed_needs_points e ltac:(lia)). lia.
Qed.

(** One record: what it adds to the ledger and to the audit. *)
Lemma expire_step_audit db log rec :
  exists rows logs,
    points_history (fst (expire_step today_date (db, log) rec))
    = points_history db ++ rows
    /\ snd (expire_step today_date (db, log) rec) = log ++ logs
    /\ map (fun r => (h_employee_id r, point_date r, points r, flag_code r))
         rows
       = map (fun l => (log_emp_id l, today_date, -100 * log_removed l,
                        "AUTO"%string)) logs
    /\ Forall (fun l => 1 <= log_removed l /\ 0 <= log_total l
                        /\ log_date l = today_date) logs.
Proof.
  unfold expire_step.
  destruct (rolloff_date rec) as [r0|];
    [|exists [], []; cbn [fst snd map]; rewrite !app_nil_r; auto].
  destruct (expire_rec today_date rec r0) as [[t removed] nr] eqn:E.
  apply expire_rec_total in E.
  destruct (Z.ltb_spec 0 removed).
  - eexists [_], [_]. cbn [fst snd insert_point points_history
                            update_employees map].
    split; [reflexivity|]. split; [reflexivity|].
    cbn [h_employee_id point_date points flag_code log_emp_id log_removed
         log_total log_date].
    split; [reflexivity|].
    constructor; [|constructor]. cbn [log_removed log_total log_date].
    split; [lia|]. split; [lia | reflexivity].
  - exists [], []. destruct (negb (date_eqb r0 nr));
      cbn [fst snd map update_employees points_history];
      rewrite !app_nil_r; auto.
Qed.

Lemma run_audit recs db log :
  exists rows logs,
    points_history (fst (fold_left (expire_step today_date) recs (db, log)))
    = points_history db ++ rows
    /\ snd (fold_left (expire_step today_date) recs (db, log)) = log ++ logs
    /\ map (fun r => (h_employee_id r, point_date r, points r, flag_code r))
         rows
       = map (fun l => (log_emp_id l, today_date, -100 * log_removed l,
                        "AUTO"%string)) logs
    /\ Forall (fun l => 1 <= log_removed l /\ 0 <= log_total l
                        /\ log_date l = today_date) logs.
Proof.
  revert db log. induction recs as [|rec recs IH]; intros db log;
    cbn [fold_left].
  - exists [], []. cbn [fst snd map]. rewrite !app_nil_r. auto.
  - destruct (expire_step_audit db log rec) as (r1 & l1 & H1 & H2 & H3 & H4).
    destruct (expire_step today_date (db, log) rec) as [db1 log1].
    cbn [fst snd] in H1, H2.
    destruct (IH db1 log1) as (r2 & l2 & G1 & G2 & G3 & G4).
    exists (r1 ++ r2), (l1 ++ l2).
    rewrite G1, G2, H1, H2, <- !app_assoc, !map_app, H3, G3.
    repeat split; auto. apply Forall_app; auto.
Qed.

(** Due dates *)









End BatchMore.

(** X13.  A roll-off run keeps every row in place with its key, names,
    last point date and perfect-attendance date; a row that is not due
    is not changed at all; no total goes up, and none that was not
    negative becomes negative. *)
Theorem auto_expire_rows (today_date sql_now : date) (db : database) :
  unique_employee_ids db ->
  Forall2
    (fun e e' =>
       employee_id e' = employee_id e
       /\ last_name e' = last_name e /\ first_name e' = first_name e
       /\ last_point_date e' = last_point_date e
       /\ perfect_attendance e' = perfect_attendance e
       /\ (expired sql_now e = false -> e' = e)
       /\ or_zero (point_total e') <= or_zero (point_total e)
       /\ (0 <= or_zero (point_total e) -> 0 <= or_zero (point_total e')))
    (employees db)
    (employees (fst (auto_expire_points today_date sql_now db))).
Proof.
  intros Hnd. rewrite auto_expire_employees by exact Hnd.
  apply Forall2_map_same. intros e _. unfold expire_row.
  destruct (expired sql_now e).
  - pose proof (touch_fields today_date e e) as (H1 & H2 & H3 & H4 & H5).
    pose proof (touch_total_bounds today_date e) as [H6 H7].
    repeat split; auto. discriminate.
  - repeat split; auto; lia.
Qed.

Lemma auto_expire_rows_witness :
  let db := conn (after fresh (infraction "01-15-2025" 1)) in
  unique_employee_ids db
  /\ List.length (employees (fst (auto_expire_points (mkdate 2026 1 1)
                                    (mkdate 2026 1 1) db)))
     = List.length (employees db).
Proof.
  cbv zeta.
  assert (H : unique_employee_ids
                (conn (after fresh (infraction "01-15-2025" 1))))
    by one_key.
  split; [exact H|]. symmetry.
  exact (Forall2_length
           (auto_expire_rows (mkdate 2026 1 1) (mkdate 2026 1 1) _ H)).
Defined.

(** X14.  A roll-off run only appends to the ledger, one event for
    each audit row and in the same order: for the same employee, dated
    the day of the run, flagged AUTO, of minus the whole points the row
    reports; every audit row reports at least one point and a total
    that is not negative. *)
Theorem auto_expire_audit (today_date sql_now : date) (db : database) :
  exists rows,
    points_history (fst (auto_expire_points today_date sql_now db))
    = points_history db ++ rows
    /\ map (fun r => (h_employee_id r, point_date r, points r, flag_code r))
         rows
       = map (fun l => (log_emp_id l, today_date, -100 * log_removed l,
                        "AUTO"%string))
           (snd (auto_expire_points today_date sql_now db))
    /\ Forall (fun l => 1 <= log_removed l /\ 0 <= log_total l
                        /\ log_date l = today_date)
         (snd (auto_expire_points today_date sql_now db)).
Proof.
  unfold auto_expire_points.
  destruct (run_audit today_date
              (filter (expired sql_now) (employees db)) db [])
    as (rows & logs & H1 & H2 & H3 & H4).
  exists rows. rewrite H1, H2. cbn [app]. auto.
Qed.



(** * The employees table *)

Section Employees.

Implicit Types (db : database) (e x : employee) (l : list employee).

Lemma insert_employee_In e l x :
  In x (insert_employee e l) <-> x = e \/ In x l.
Proof.
  induction l as [|y l IH]; cbn [insert_employee In]; [intuition|].
  destruct (employee_id e <? employee_id y); cbn [In]; [intuition|].
  rewrite IH. intuition.
Qed.

Lemma insert_employee_keys_In e l k :
  In k (map employee_id (insert_employee e l))
  <-> k = employee_id e \/ In k (map employee_id l).
Proof.
  rewrite !in_map_iff. split.
  - intros (x & <- & Hx). apply insert_employee_In in Hx as [->|Hx]; eauto.
  - intros [->|(x & <- & Hx)]; eexists; split; eauto;
      apply insert_employee_In; auto.
Qed.

Lemma insert_employee_unique e l :
  NoDup (map employee_id l) -> ~ In (employee_id e) (map employee_id l) ->
  NoDup (map employee_id (insert_employee e l)).
Proof.
  induction l as [|y l IH]; cbn [insert_employee map]; intros Hnd Hnew.
  - repeat constructor. intros [].
  - destruct (employee_id e <? employee_id y); cbn [map].
    + constructor; assumption.
    + apply NoDup_cons_iff in Hnd as [Hy Hl].
      cbn [In] in Hnew. constructor.
      * rewrite insert_employee_keys_In. intros [Heq|Hin]; [|auto].
        apply Hnew. left. congruence.
      * apply IH; auto.
Qed.

Lemma insert_employee_sorted e l :
  StronglySorted Z.lt (map employee_id l) ->
  ~ In (employee_id e) (map employee_id l) ->
  StronglySorted Z.lt (map employee_id (insert_employee e l)).
Proof.
  induction l as [|y l IH]; cbn [insert_employee map]; intros Hs Hnew.
  - repeat constructor.
  - apply StronglySorted_inv in Hs as [Hl Hy]. cbn [In] in Hnew.
    destruct (Z.ltb_spec (employee_id e) (employee_id y)); cbn [map].
    + constructor; [constructor; assumption|].
      constructor; [assumption|].
      eapply Forall_impl; [|exact Hy]. cbn beta. lia.
    + constructor; [apply IH; auto|].
      apply Forall_forall. intros k Hk.
      apply insert_employee_keys_In in Hk as [->|Hk].
      * assert (employee_id y <> employee_id e) by auto. lia.
      * rewrite Forall_forall in Hy. auto.
Qed.

Lemma find_key_none l k :
  find (fun e => employee_id e =? k) l = None
  <-> ~ In k (map employee_id l).
Proof.
  induction l as [|y l IH]; cbn [find map In]; [intuition|].
  destruct (Z.eqb_spec (employee_id y) k); [|rewrite IH; intuition].
  split; [discriminate | intros H; exfalso; auto].
Qed.

Lemma find_insert_employee e l k :
  ~ In (employee_id e) (map employee_id l) ->
  find (fun x => employee_id x =? k) (insert_employee e l)
  = if employee_id e =? k then Some e
    else find (fun x => employee_id x =? k) l.
Proof.
  induction l as [|y l IH]; cbn [insert_employee map In]; intros Hnew.
  - cbn [find]. reflexivity.
  - destruct (employee_id e <? employee_id y); cbn [find]; [reflexivity|].
    rewrite IH by auto.
    destruct (Z.eqb_spec (employee_id y) k) as [Hy|Hy]; [|reflexivity].
    destruct (Z.eqb_spec (employee_id e) k); [|reflexivity].
    exfalso. apply Hnew. left. congruence.
Qed.

(** What an accepted employee was given. *)
Lemma add_employee_added db (form : employee_form) :
  fst (_add_employee db form) = EmployeeAdded ->
  exists emp_id perfect_iso,
    py_int (strip (new_id form)) = Some emp_id /\ 0 < emp_id
    /\ select_employee db emp_id = None
    /\ snd (_add_employee db form)
       = mkdb (insert_employee
                 (mkemployee emp_id (strip (new_last form))
                    (strip (new_first form)) (Some 0) None None perfect_iso)
                 (employees db))
              (points_history db) (sqlite_sequence db).
Proof.
  unfold _add_employee.
  destruct (is_empty (strip (new_id form)) || is_empty (strip (new_last form))
            || is_empty (strip (new_first form))); [discriminate|].
  destruct (py_int (strip (new_id form))) as [emp_id|]; [|discriminate].
  destruct (Z.leb_spec emp_id 0); [discriminate|].
  destruct (if is_empty (strip (new_perfect form)) then Some None
            else option_map Some (parse_us_to_iso (strip (new_perfect form))))
    as [perfect_iso|]; [|discriminate].
  destruct (select_employee db emp_id) eqn:Hs; [discriminate|].
  intros _. exists emp_id, perfect_iso. auto.
Qed.

Lemma add_employee_rejected db (form : employee_form) :
  fst (_add_employee db form) <> EmployeeAdded ->
  snd (_add_employee db form) = db.
Proof.
  unfold _add_employee.
  destruct (is_empty (strip (new_id form)) || is_empty (strip (new_last form))
            || is_empty (strip (new_first form))); [reflexivity|].
  destruct (py_int (strip (new_id form))) as [emp_id|]; [|reflexivity].
  destruct (emp_id <=? 0); [reflexivity|].
  destruct (if is_empty (strip (new_perfect form)) then Some None
            else option_map Some (parse_us_to_iso (strip (new_perfect form))))
    as [perfect_iso|]; [|reflexivity].
  destruct (select_employee db emp_id); [reflexivity|].
  cbn [fst]. congruence.
Qed.

(** Deleting *)

Lemma delete_employee_select db emp k :
  select_employee (delete_employee db emp) k
  = if k =? emp then None else select_employee db k.
Proof.
  unfold select_employee, delete_employee; cbn [employees].
  destruct (Z.eqb_spec k emp) as [Hk|Hk];
    induction (employees db) as [|y l IH]; cbn [filter find];
    try reflexivity;
    destruct (Z.eqb_spec (employee_id y) emp) as [Hy|Hy]; cbn [negb find];
    try exact IH;
    destruct (Z.eqb_spec (employee_id y) k); try congruence; auto.
Qed.

Lemma delete_employee_history db emp k :
  history_of (delete_employee db emp) k
  = if k =? emp then [] else history_of db k.
Proof.
  unfold history_of, delete_employee; cbn [points_history].
  destruct (Z.eqb_spec k emp) as [Hk|Hk];
    induction (points_history db) as [|r l IH]; cbn [filter];
    try reflexivity;
    destruct (Z.eqb_spec (h_employee_id r) emp) as [Hr|Hr];
    cbn [negb filter]; try exact IH;
    destruct (Z.eqb_spec (h_employee_id r) k); try congruence; auto.
Qed.

Lemma delete_employee_ids_ok db emp :
  event_ids_ok db -> event_ids_ok (delete_employee db emp).
Proof.
  intros [Hnd Hle]. unfold event_ids_ok, delete_employee.
  cbn [points_history sqlite_sequence]. split.
  - now apply filter_keeps_distinct.
  - intros r Hr. apply filter_In in Hr as [Hr _]. auto.
Qed.

Lemma delete_employee_unique db emp :
  unique_employee_ids db -> unique_employee_ids (delete_employee db emp).
Proof.
  unfold unique_employee_ids, delete_employee; cbn [employees].
  apply filter_keeps_distinct.
Qed.

End Employees.

(** X16.  [_add_employee] keeps employee ids unique and the table in
    key order, and never touches the ledger.  Unless it reports success
    it changes nothing, so an id in use is never overwritten; on success
    the id is positive and was free, the new row is found under it with
    total 0 and no dates of its own, and every other row is as before. *)
Theorem add_employee_keeps_keys_unique (db : database)
    (form : employee_form) :
  unique_employee_ids db ->
  unique_employee_ids (snd (_add_employee db form))
  /\ points_history (snd (_add_employee db form)) = points_history db
  /\ (fst (_add_employee db form) <> EmployeeAdded ->
      snd (_add_employee db form) = db)
  /\ (StronglySorted Z.lt (map employee_id (employees db)) ->
      StronglySorted Z.lt
        (map employee_id (employees (snd (_add_employee db form)))))
  /\ (fst (_add_employee db form) = EmployeeAdded ->
      exists e,
        py_int (strip (new_id form)) = Some (employee_id e)
        /\ 0 < employee_id e
        /\ select_employee db (employee_id e) = None
        /\ select_employee (snd (_add_employee db form)) (employee_id e)
           = Some e
        /\ point_total e = Some 0 /\ last_point_date e = None
        /\ rolloff_date e = None
        /\ (forall k, k <> employee_id e ->
              select_employee (snd (_add_employee db form)) k
              = select_employee db k)
        /\ (forall x, In x (employees (snd (_add_employee db form)))
                      <-> x = e \/ In x (employees db))).
Proof.
  intros Hnd.
  assert (Hdec : fst (_add_employee db form) = EmployeeAdded
                 \/ fst (_add_employee db form) <> EmployeeAdded)
    by (destruct (fst (_add_employee db form)); auto; right; discriminate).
  destruct Hdec as [Hadd|Hrej].
  2:{ rewrite (add_employee_rejected db form Hrej).
      repeat split; auto; contradiction. }
  destruct (add_employee_added db form Hadd)
    as (emp_id & perfect_iso & Hint & Hpos & Hsel & ->).
  cbn [snd points_history employees].
  assert (Hnew : ~ In emp_id (map employee_id (employees db)))
    by (now apply find_key_none).
  split; [|split; [reflexivity|split; [contradiction|split]]].
  - unfold unique_employee_ids; cbn [employees].
    now apply insert_employee_unique.
  - intros Hs. now apply insert_employee_sorted.
  - intros _. eexists (mkemployee emp_id _ _ (Some 0) None None perfect_iso).
    cbn [employee_id point_total last_point_date rolloff_date].
    unfold select_employee; cbn [employees].
    repeat split; auto.
    + rewrite find_insert_employee by exact Hnew. cbn [employee_id].
      now rewrite Z.eqb_refl.
    + intros k Hk. rewrite find_insert_employee by exact Hnew.
      cbn [employee_id]. destruct (Z.eqb_spec emp_id k); congruence.
    + apply insert_employee_In.
    + apply insert_employee_In.
Qed.

Lemma add_employee_keeps_keys_unique_witness :
  unique_employee_ids (conn fresh)
  /\ unique_employee_ids
       (snd (_add_employee (conn fresh) (mkeform "7" "Roe" "Rick" ""))).
Proof.
  assert (H : unique_employee_ids (conn fresh)) by one_key.
  split; [exact H|].
  exact (proj1 (add_employee_keeps_keys_unique (conn fresh)
                  (mkeform "7" "Roe" "Rick" "") H)).
Defined.

(** X17.  Deleting an employee removes the row and every ledger event
    of that employee, and nothing of anyone else: the other rows, their
    ledgers, the agreement of their totals with their ledgers and the
    uniqueness of keys and ids are kept.  Declining the dialog changes
    nothing. *)
Theorem delete_employee_leaves_no_orphans (db : database) (emp_id : Z) :
  select_employee (delete_employee db emp_id) emp_id = None
  /\ history_of (delete_employee db emp_id) emp_id = []
  /\ (forall k, k <> emp_id ->
        select_employee (delete_employee db emp_id) k = select_employee db k
        /\ history_of (delete_employee db emp_id) k = history_of db k)
  /\ (forall e, In e (employees (delete_employee db emp_id)) ->
        In e (employees db)
        /\ (total_in_sync db e -> total_in_sync (delete_employee db emp_id) e))
  /\ (unique_employee_ids db -> unique_employee_ids (delete_employee db emp_id))
  /\ (event_ids_ok db -> event_ids_ok (delete_employee db emp_id))
  /\ _delete_employee_prompt db emp_id false = db.
Proof.
  split; [|split; [|split; [|split; [|split; [|split]]]]].
  - rewrite delete_employee_select. now rewrite Z.eqb_refl.
  - rewrite delete_employee_history. now rewrite Z.eqb_refl.
  - intros k Hk. rewrite delete_employee_select, delete_employee_history.
    destruct (Z.eqb_spec k emp_id); [contradiction | auto].
  - intros e Hin. cbn [delete_employee employees] in Hin.
    apply filter_In in Hin as [Hin Hne]. split; [exact Hin|].
    unfold total_in_sync, ledger_total. rewrite delete_employee_history.
    apply negb_true_iff in Hne. now rewrite Hne.
  - apply delete_employee_unique.
  - apply delete_employee_ids_ok.
  - reflexivity.
Qed.

(** X18.  Deleting the selected employees removes each of them with
    all of their ledger events and leaves every employee outside the
    selection, and that employee's ledger, as before; an empty selection
    or a declined dialog changes nothing. *)
Theorem delete_selected_employees_spec (db : database) (sel : list Z) :
  (forall k, In k sel ->
     select_employee (delete_selected_employees db sel true) k = None
     /\ history_of (delete_selected_employees db sel true) k = [])
  /\ (forall k, ~ In k sel ->
        select_employee (delete_selected_employees db sel true) k
        = select_employee db k
        /\ history_of (delete_selected_employees db sel true) k
           = history_of db k)
  /\ delete_selected_employees db sel false = db
  /\ delete_selected_employees db [] true = db.
Proof.
  assert (Hfold : forall l d k,
    select_employee (fold_left delete_employee l d) k
    = (if existsb (Z.eqb k) l then None else select_employee d k)
    /\ history_of (fold_left delete_employee l d) k
       = (if existsb (Z.eqb k) l then [] else history_of d k)).
  { induction l as [|x l IH]; intros d k; cbn [fold_left existsb];
      [auto|].
    destruct (IH (delete_employee d x) k) as [-> ->].
    rewrite delete_employee_select, delete_employee_history.
    destruct (k =? x), (existsb (Z.eqb k) l); auto. }
  assert (Hsame : delete_selected_employees db sel true
                  = fold_left delete_employee sel db)
    by (destruct sel; reflexivity).
  rewrite Hsame.
  split; [|split; [|split]].
  - intros k Hk. destruct (Hfold sel db k) as [-> ->].
    assert (existsb (Z.eqb k) sel = true) as ->; [|auto].
    apply existsb_exists. exists k. split; [exact Hk | apply Z.eqb_refl].
  - intros k Hk. destruct (Hfold sel db k) as [-> ->].
    assert (existsb (Z.eqb k) sel = false) as ->; [|auto].
    apply not_true_is_false. intros H.
    apply existsb_exists in H as (x & Hx & Heq%Z.eqb_eq). congruence.
  - now destruct sel.
  - reflexivity.
Qed.

(** X19.  An id freed by a delete can be given to a new employee, who
    starts with total 0 and an empty ledger, in agreement with it. *)
Theorem deleted_id_starts_afresh (db : database) (emp_id : Z)
    (form : employee_form) :
  py_int (strip (new_id form)) = Some emp_id ->
  fst (_add_employee (delete_employee db emp_id) form) = EmployeeAdded ->
  exists e,
    select_employee (snd (_add_employee (delete_employee db emp_id) form))
      emp_id = Some e
    /\ point_total e = Some 0
    /\ total_in_sync (snd (_add_employee (delete_employee db emp_id) form)) e
    /\ anchor_in_sync (snd (_add_employee (delete_employee db emp_id) form)) e.
Proof.
  intros Hint Hadd.
  destruct (add_employee_added _ form Hadd)
    as (k & perfect_iso & Hint' & Hpos & Hsel & Hdb).
  assert (k = emp_id) as -> by congruence.
  rewrite Hdb.
  eexists. unfold select_employee at 1; cbn [employees].
  rewrite find_insert_employee; cbn [employee_id];
    [rewrite Z.eqb_refl | now apply find_key_none].
  split; [reflexivity|].
  unfold total_in_sync, anchor_in_sync, ledger_total.
  cbn [point_total employee_id last_point_date].
  change (history_of (mkdb _ (points_history (delete_employee db emp_id)) _)
            emp_id)
    with (history_of (delete_employee db emp_id) emp_id).
  rewrite delete_employee_history, Z.eqb_refl. repeat split.
Qed.

Lemma deleted_id_starts_afresh_witness :
  let db := conn (after fresh (infraction "01-15-2025" 1)) in
  exists e,
    select_employee
      (snd (_add_employee (delete_employee db 100)
              (mkeform "100" "Poe" "Pat" ""))) 100 = Some e
    /\ point_total e = Some 0.
Proof.
  cbv zeta.
  destruct (deleted_id_starts_afresh
              (conn (after fresh (infraction "01-15-2025" 1))) 100
              (mkeform "100" "Poe" "Pat" "") eq_refl eq_refl)
    as (e & H1 & H2 & _).
  exists e. split; assumption.
Defined.

(** * The perfect-attendance report *)

Section PerfectReport.

Variable as_of_date : date.

Implicit Types (db : database) (e rec : employee) (recs : list employee).

Lemma ids_name_rows (l : list employee) (x y : employee) :
  NoDup (map employee_id l) -> In x l -> In y l ->
  employee_id x = employee_id y -> x = y.
Proof.
  induction l as [|a l IH]; intros Hnd Hx Hy Hk; [destruct Hx|].
  apply NoDup_cons_iff in Hnd as [Hnew Hnd]. cbn [map] in Hnew.
  destruct Hx as [<-|Hx], Hy as [<-|Hy]; auto.
  - exfalso. apply Hnew. rewrite Hk. now apply in_map.
  - exfalso. apply Hnew. rewrite <- Hk. now apply in_map.
Qed.

Lemma insert_by_name_In e recs x :
  In x (insert_by_name e recs) <-> x = e \/ In x recs.
Proof.
  induction recs as [|a recs IH]; cbn [insert_by_name In].
  - intuition congruence.
  - destruct (name_leb e a); cbn [In]; [intuition congruence|].
    rewrite IH. intuition congruence.
Qed.

Lemma order_by_name_In recs x : In x (order_by_name recs) <-> In x recs.
Proof.
  induction recs as [|a recs IH]; cbn [order_by_name fold_right In];
    [reflexivity|].
  fold (order_by_name recs). rewrite insert_by_name_In, IH.
  intuition congruence.
Qed.

Lemma perfect_dry_run recs db db' log :
  fold_left (perfect_step true) recs (db, log)
  = (db, snd (fold_left (perfect_step false) recs (db', log))).
Proof.
  revert db' log. induction recs as [|rec recs IH]; intros db' log;
    cbn [fold_left]; [reflexivity|].
  unfold perfect_step at 2 4.
  destruct (perfect_attendance rec) as [due_d|]; apply IH.
Qed.

Lemma perfect_run_ledger recs db log :
  points_history (fst (fold_left (perfect_step false) recs (db, log)))
  = points_history db
  /\ sqlite_sequence (fst (fold_left (perfect_step false) recs (db, log)))
     = sqlite_sequence db.
Proof.
  revert db log. induction recs as [|rec recs IH]; intros db log;
    cbn [fold_left]; [now split|].
  unfold perfect_step at 2 4.
  destruct (perfect_attendance rec) as [due_d|]; [|apply IH].
  destruct (IH (update_employees db (employee_id rec) (fun e =>
              mkemployee (employee_id e) (last_name e) (first_name e)
                (point_total e) (last_point_date e) (rolloff_date e)
                (Some (three_months_then_first due_d))))
              (log ++ [perfect_line rec due_d])) as [-> ->].
  now split.
Qed.

Lemma perfect_run_employees recs db log :
  employees (fst (fold_left (perfect_step false) recs (db, log)))
  = map (fun e => fold_left perfect_bump recs e) (employees db).
Proof.
  revert db log. induction recs as [|rec recs IH]; intros db log;
    cbn [fold_left].
  - cbn [fst]. now rewrite map_id.
  - unfold perfect_step at 2, perfect_bump at 2.
    destruct (perfect_attendance rec) as [due_d|]; rewrite IH; [|reflexivity].
    unfold update_employees; cbn [employees]. now rewrite map_map.
Qed.

Lemma perfect_run_lines recs db log :
  (forall rec, In rec recs -> perfect_due as_of_date rec = true) ->
  forall r,
    In r (snd (fold_left (perfect_step false) recs (db, log)))
    <-> In r log
        \/ exists rec due_d,
             In rec recs /\ perfect_attendance rec = Some due_d
             /\ r = perfect_line rec due_d.
Proof.
  revert db log. induction recs as [|rec recs IH]; intros db log Hdue r;
    cbn [fold_left].
  - cbn [snd]. split; [now left|]. now intros [H|(? & ? & [] & _)].
  - pose proof (Hdue rec (or_introl eq_refl)) as Hrec.
    unfold perfect_due in Hrec. unfold perfect_step at 2.
    destruct (perfect_attendance rec) as [due_d|] eqn:Hp; [|discriminate].
    rewrite IH by (intros; apply Hdue; now right).
    rewrite in_app_iff. cbn [In]. split.
    + intros [[H|[<-|[]]]|(rec' & d' & Hin & Hd & ->)].
      * now left.
      * right. exists rec, due_d. now repeat split; [left|..].
      * right. exists rec', d'. now repeat split; [right|..].
    + intros [H|(rec' & d' & [<-|Hin] & Hd & ->)].
      * now left; left.
      * left; right; left. congruence.
      * right. exists rec', d'. now repeat split.
Qed.

Lemma advance_perfect_key e :
  employee_id (advance_perfect as_of_date e) = employee_id e.
Proof.
  unfold advance_perfect. destruct (perfect_attendance e); [|reflexivity].
  now destruct (date_leb _ _).
Qed.

Lemma bump_due_row e :
  perfect_due as_of_date e = true ->
  perfect_bump e e = advance_perfect as_of_date e
  /\ perfect_bump (advance_perfect as_of_date e) e
     = advance_perfect as_of_date e.
Proof.
  unfold perfect_due, perfect_bump, advance_perfect.
  destruct (perfect_attendance e) as [p|]; [|discriminate].
  intros ->. cbn [employee_id]. now rewrite Z.eqb_refl.
Qed.

Lemma bump_settled recs e :
  (forall rec, In rec recs -> perfect_due as_of_date rec = true) ->
  (forall rec, In rec recs -> employee_id rec = employee_id e -> rec = e) ->
  fold_left perfect_bump recs (advance_perfect as_of_date e)
  = advance_perfect as_of_date e.
Proof.
  induction recs as [|rec recs IH]; intros Hdue Hkey; cbn [fold_left];
    [reflexivity|].
  assert (perfect_bump (advance_perfect as_of_date e) rec
          = advance_perfect as_of_date e) as ->.
  { destruct (Z.eqb_spec (employee_id rec) (employee_id e)) as [Heq|Hne].
    - rewrite (Hkey rec (or_introl eq_refl) Heq) in *.
      apply bump_due_row, Hdue. now left.
    - unfold perfect_bump. destruct (perfect_attendance rec); [|reflexivity].
      rewrite advance_perfect_key.
      destruct (Z.eqb_spec (employee_id e) (employee_id rec)); congruence. }
  apply IH; intros; [apply Hdue | apply Hkey]; auto; now right.
Qed.

Lemma bump_row recs e :
  (forall rec, In rec recs -> perfect_due as_of_date rec = true) ->
  (forall rec, In rec recs -> employee_id rec = employee_id e -> rec = e) ->
  (perfect_due as_of_date e = true -> In e recs) ->
  fold_left perfect_bump recs e = advance_perfect as_of_date e.
Proof.
  induction recs as [|rec recs IH]; intros Hdue Hkey Hin; cbn [fold_left].
  - unfold advance_perfect.
    destruct (perfect_attendance e) as [p|] eqn:Hp; [|reflexivity].
    destruct (date_leb p as_of_date) eqn:Hd; [|reflexivity].
    destruct Hin. unfold perfect_due. now rewrite Hp.
  - destruct (Z.eqb_spec (employee_id rec) (employee_id e)) as [Heq|Hne].
    + rewrite (Hkey rec (or_introl eq_refl) Heq) in *.
      destruct (bump_due_row e) as [-> _]; [apply Hdue; now left|].
      apply bump_settled; intros; [apply Hdue | apply Hkey]; auto; now right.
    + assert (perfect_bump e rec = e) as ->.
      { unfold perfect_bump. destruct (perfect_attendance rec); [|reflexivity].
        destruct (Z.eqb_spec (employee_id e) (employee_id rec)); congruence. }
      apply IH; intros; [apply Hdue | apply Hkey |]; auto; try now right.
      destruct Hin as [->|]; [assumption|congruence|assumption].
Qed.

Lemma three_months_then_first_index (d : date) :
  day (three_months_then_first d) = 1
  /\ month_index (three_months_then_first d) = month_index d + 4.
Proof.
  unfold three_months_then_first. rewrite first_of_next_month_spec.
  unfold firstOfNextMonth. split; [reflexivity|].
  change (month_index (first_of_month (add_months (add_months d 3) 1)))
    with (month_index (add_months (add_months d 3) 1)).
  rewrite !month_index_add_months. lia.
Qed.

End PerfectReport.

(** X20.  The perfect-attendance report as a dry run changes nothing
    and lists the rows the real run lists.  With unique employee ids the
    report lists exactly the employees whose perfect-attendance date is
    on or before [as_of], each with a next date that is a first of the
    month four calendar months on; the real run stores that next date
    for each of them and changes nothing else: no other row, no total,
    no other date, no ledger event. *)
Theorem perfect_report_advances_due_dates (as_of_date : date)
    (db : database) :
  unique_employee_ids db ->
  let after_run := perfect_attendance_report as_of_date false db in
  perfect_attendance_report as_of_date true db = (db, snd after_run)
  /\ employees (fst after_run)
     = map (advance_perfect as_of_date) (employees db)
  /\ points_history (fst after_run) = points_history db
  /\ sqlite_sequence (fst after_run) = sqlite_sequence db
  /\ (forall r,
        In r (snd after_run)
        <-> exists e due_d,
              In e (employees db) /\ perfect_attendance e = Some due_d
              /\ date_leb due_d as_of_date = true
              /\ r = perfect_line e due_d)
  /\ forall r,
       In r (snd after_run) ->
       day (pa_next r) = 1
       /\ month_index (pa_next r) = month_index (pa_due r) + 4.
Proof.
  intros Hnd after_run. subst after_run. unfold perfect_attendance_report.
  set (recs := order_by_name (filter (perfect_due as_of_date) (employees db))).
  assert (Hrecs : forall rec, In rec recs <->
            In rec (employees db) /\ perfect_due as_of_date rec = true).
  { intros rec. unfold recs. rewrite order_by_name_In. apply filter_In. }
  assert (Hlines : forall r,
            In r (snd (fold_left (perfect_step false) recs (db, [])))
            <-> exists e due_d,
                  In e (employees db) /\ perfect_attendance e = Some due_d
                  /\ date_leb due_d as_of_date = true
                  /\ r = perfect_line e due_d).
  { intros r. rewrite (perfect_run_lines as_of_date)
      by (intros rec Hin; now apply Hrecs). split.
    - intros [[]|(e & due_d & Hin & Hp & ->)].
      apply Hrecs in Hin as [Hin Hdue]. exists e, due_d.
      unfold perfect_due in Hdue. rewrite Hp in Hdue. now repeat split.
    - intros (e & due_d & Hin & Hp & Hd & ->). right. exists e, due_d.
      repeat split; auto. apply Hrecs. split; [exact Hin|].
      unfold perfect_due. now rewrite Hp. }
  split; [apply perfect_dry_run|].
  split.
  { rewrite perfect_run_employees. apply map_ext_in. intros e He.
    apply bump_row.
    - intros rec Hin. now apply Hrecs.
    - intros rec Hin Hk. apply Hrecs in Hin as [Hin _].
      now apply (ids_name_rows (employees db)).
    - intros Hdue. now apply Hrecs. }
  split; [apply perfect_run_ledger|].
  split; [apply perfect_run_ledger|].
  split; [exact Hlines|].
  intros r Hr. apply Hlines in Hr as (e & due_d & _ & _ & _ & ->).
  unfold perfect_line; cbn [pa_next pa_due].
  apply three_months_then_first_index.
Qed.

Lemma perfect_report_advances_due_dates_witness :
  let db := conn (after fresh (infraction "01-15-2025" 1)) in
  unique_employee_ids db
  /\ employees (fst (perfect_attendance_report (mkdate 2025 6 1) false db))
     = map (advance_perfect (mkdate 2025 6 1)) (employees db).
Proof.
  cbv zeta.
  assert (H : unique_employee_ids
                (conn (after fresh (infraction "01-15-2025" 1))))
    by one_key.
  split; [exact H|].
  exact (proj1 (proj2 (perfect_report_advances_due_dates
                         (mkdate 2025 6 1) _ H))).
Defined.

(** * The point-history export *)

Section PointHistoryExport.

Implicit Types (db : database) (d : dict) (k : Z) (e : employee)
  (rows : list (point_row * employee)).

Lemma dict_get_set d k v k' :
  dict_get (dict_set d k v) k' = if k =? k' then Some v else dict_get d k'.
Proof.
  unfold dict_get, dict_set; cbn [find fst snd].
  now destruct (k =? k').
Qed.

(** One turn of the loop: the line carries the employee's total so far,
    and only that employee's entry of the dict moves. *)
Lemma export_step_total d (r : point_row * employee) :
  let k := employee_id (snd r) in
  x_emp_id (snd (export_step d r)) = k
  /\ x_points (snd (export_step d r)) = points (fst r)
  /\ x_point_total (snd (export_step d r))
     = or_zero (dict_get d k) + points (fst r)
  /\ forall k',
       or_zero (dict_get (fst (export_step d r)) k')
       = or_zero (dict_get d k') + (if k =? k' then points (fst r) else 0).
Proof.
  destruct r as [p e]; cbn [fst snd export_step x_emp_id x_points
                             x_point_total].
  split; [reflexivity|]. split; [reflexivity|].
  assert (Hk : or_zero
                 (dict_get
                    match dict_get d (employee_id e) with
                    | Some _ => d
                    | None => dict_set d (employee_id e) 0
                    end (employee_id e))
               = or_zero (dict_get d (employee_id e))).
  { destruct (dict_get d (employee_id e)) as [v|] eqn:Hd.
    - now rewrite Hd.
    - now rewrite dict_get_set, Z.eqb_refl. }
  split.
  - now rewrite dict_get_set, Z.eqb_refl, Hk.
  - intros k'. rewrite dict_get_set.
    destruct (Z.eqb_spec (employee_id e) k') as [<-|Hne].
    + now rewrite Hk.
    + destruct (dict_get d (employee_id e)); [lia|].
      rewrite dict_get_set.
      destruct (Z.eqb_spec (employee_id e) k'); [contradiction|lia].
Qed.

Lemma exported_points_app (l1 l2 : list export_row) k :
  exported_points (l1 ++ l2) k = exported_points l1 k + exported_points l2 k.
Proof.
  induction l1 as [|x l1 IH]; cbn [app exported_points fold_right];
    [reflexivity|].
  fold (exported_points (l1 ++ l2) k). fold (exported_points l1 k).
  rewrite IH. lia.
Qed.

Lemma export_lines_running rows : forall d pre x post,
  export_lines d rows = pre ++ x :: post ->
  x_point_total x
  = or_zero (dict_get d (x_emp_id x))
    + exported_points (pre ++ [x]) (x_emp_id x).
Proof.
  induction rows as [|r rows IH]; intros d pre x post; cbn [export_lines].
  - now destruct pre.
  - destruct (export_step_total d r) as (Hid & Hpts & Htot & Hd).
    destruct (export_step d r) as [d' line]; cbn [fst snd] in *.
    destruct pre as [|y pre]; cbn [app]; intros [= <- Hrest].
    + cbn [exported_points fold_right]. rewrite Z.eqb_refl, Htot, Hid, Hpts.
      lia.
    + rewrite (IH _ _ _ _ Hrest), Hd.
      cbn [exported_points fold_right].
      fold (exported_points (pre ++ [x]) (x_emp_id x)).
      rewrite Hid, Hpts. lia.
Qed.

Lemma export_lines_points rows k : forall d,
  exported_points (export_lines d rows) k = joined_points k rows.
Proof.
  induction rows as [|r rows IH]; intros d; cbn [export_lines];
    [reflexivity|].
  destruct (export_step_total d r) as (Hid & Hpts & _).
  destruct (export_step d r) as [d' line]; cbn [fst snd] in *.
  cbn [exported_points joined_points fold_right].
  fold (exported_points (export_lines d' rows) k). fold (joined_points k rows).
  now rewrite IH, Hid, Hpts.
Qed.

Lemma export_lines_rows rows x : forall d,
  In x (export_lines d rows) ->
  exists r, In r rows /\ x_emp_id x = employee_id (snd r).
Proof.
  induction rows as [|r rows IH]; intros d; cbn [export_lines];
    [intros []|].
  destruct (export_step_total d r) as (Hid & _).
  destruct (export_step d r) as [d' line]; cbn [fst snd] in *.
  intros [<-|Hin].
  - exists r. split; [now left | exact Hid].
  - destruct (IH _ Hin) as (r' & Hr' & Hk). exists r'. split; [now right|auto].
Qed.

Lemma insert_export_rows (a : point_row * employee) rows k :
  joined_points k (insert_export a rows)
  = joined_points k (a :: rows)
  /\ forall r, In r (insert_export a rows) -> r = a \/ In r rows.
Proof.
  induction rows as [|x rows [IHs IHi]]; cbn [insert_export].
  - split; [reflexivity|]. intros r [<-|[]]. now left.
  - destruct (export_leb a x).
    + split; [reflexivity|]. intros r [<-|H]; [now left | now right].
    + split.
      * cbn [joined_points fold_right] in *.
        fold (joined_points k (insert_export a rows)).
        fold (joined_points k rows) in *. rewrite IHs. lia.
      * intros r [<-|H]; [right; now left|].
        destruct (IHi r H) as [->|H']; [now left | right; now right].
Qed.

Lemma order_export_rows rows k :
  joined_points k (order_export rows) = joined_points k rows
  /\ forall r, In r (order_export rows) -> In r rows.
Proof.
  induction rows as [|a rows [IHs IHi]]; cbn [order_export fold_right];
    [split; [reflexivity | now intros r []]|].
  fold (order_export rows).
  destruct (insert_export_rows a (order_export rows) k) as [Hs Hi]. split.
  - rewrite Hs. cbn [joined_points fold_right].
    fold (joined_points k (order_export rows)). fold (joined_points k rows).
    now rewrite IHs.
  - intros r Hr. destruct (Hi r Hr) as [->|H]; [now left | right; auto].
Qed.

Lemma joined_points_app rows1 rows2 k :
  joined_points k (rows1 ++ rows2)
  = joined_points k rows1 + joined_points k rows2.
Proof.
  induction rows1 as [|x rows1 IH]; cbn [app joined_points fold_right];
    [reflexivity|].
  fold (joined_points k (rows1 ++ rows2)). fold (joined_points k rows1).
  rewrite IH. lia.
Qed.

Lemma no_row_joins (emps : list employee) j :
  ~ In j (map employee_id emps) ->
  filter (fun x => employee_id x =? j) emps = [].
Proof.
  induction emps as [|a emps IH]; cbn [map filter In]; intros Hj;
    [reflexivity|].
  destruct (Z.eqb_spec (employee_id a) j); [tauto|]. apply IH. tauto.
Qed.

(** With unique ids one employee row at most joins a ledger row. *)
Lemma one_row_joins (emps : list employee) e :
  NoDup (map employee_id emps) -> In e emps ->
  filter (fun x => employee_id x =? employee_id e) emps = [e].
Proof.
  induction emps as [|a emps IH]; intros Hnd Hin; [destruct Hin|].
  apply NoDup_cons_iff in Hnd as [Hnew Hnd]. cbn [map] in Hnew. cbn [filter].
  destruct Hin as [->|Hin].
  - now rewrite Z.eqb_refl, no_row_joins.
  - destruct (Z.eqb_spec (employee_id a) (employee_id e)) as [Heq|].
    + destruct Hnew. rewrite Heq. now apply in_map.
    + now apply IH.
Qed.

Lemma other_rows_weigh_nothing (emps : list employee) (p : point_row) k :
  h_employee_id p <> k ->
  joined_points k
    (map (fun x => (p, x))
       (filter (fun x => employee_id x =? h_employee_id p) emps)) = 0.
Proof.
  intros Hne. induction emps as [|a emps IH]; [reflexivity|]. cbn [filter].
  destruct (Z.eqb_spec (employee_id a) (h_employee_id p)) as [Ha|];
    [|exact IH].
  cbn [map joined_points fold_right fst snd].
  fold (joined_points k
          (map (fun x => (p, x))
             (filter (fun x => employee_id x =? h_employee_id p) emps))).
  rewrite IH. destruct (Z.eqb_spec (employee_id a) k); [congruence|lia].
Qed.

Lemma joined_points_history (emps : list employee) (hist : list point_row)
    e :
  NoDup (map employee_id emps) -> In e emps ->
  joined_points (employee_id e)
    (flat_map
       (fun p =>
          map (fun x => (p, x))
            (filter (fun x => employee_id x =? h_employee_id p) emps))
       hist)
  = total_points (filter (fun r => h_employee_id r =? employee_id e) hist).
Proof.
  intros Hnd Hin. induction hist as [|p hist IH]; cbn [flat_map filter];
    [reflexivity|].
  rewrite joined_points_app, IH.
  destruct (Z.eqb_spec (h_employee_id p) (employee_id e)) as [Heq|Hne].
  - rewrite Heq, (one_row_joins emps e Hnd Hin).
    cbn [map joined_points fold_right fst snd total_points].
    rewrite Z.eqb_refl. fold (total_points
      (filter (fun r => h_employee_id r =? employee_id e) hist)). lia.
  - now rewrite other_rows_weigh_nothing.
Qed.

Lemma join_history_rows db (r : point_row * employee) :
  In r (join_history db) -> In (snd r) (employees db).
Proof.
  unfold join_history. intros (p & _ & H)%in_flat_map.
  apply in_map_iff in H as (e & <- & He%filter_In). apply He.
Qed.

End PointHistoryExport.

(** X21.  With unique employee ids, the Point Total on a line of the
    point-history export is the sum of the points on the lines written so
    far for that employee, and the last line written for an employee
    carries the sum of all of the employee's ledger events. *)
Theorem export_running_totals (db : database) (pre post : list export_row)
    (x : export_row) :
  unique_employee_ids db ->
  export_point_history db = pre ++ x :: post ->
  x_point_total x = exported_points (pre ++ [x]) (x_emp_id x)
  /\ ((forall y, In y post -> x_emp_id y <> x_emp_id x) ->
      x_point_total x = ledger_total db (x_emp_id x)).
Proof.
  intros Hnd Hsplit. unfold export_point_history in Hsplit.
  pose proof (export_lines_running _ _ _ _ _ Hsplit) as Hrun.
  cbn [dict_get find option_map or_zero] in Hrun.
  split; [lia|]. intros Hpost.
  assert (Hx : In x (export_lines [] (order_export (join_history db)))).
  { rewrite Hsplit. apply in_elt. }
  apply export_lines_rows in Hx as (r & Hr & Hk).
  apply (order_export_rows _ 0) in Hr. apply join_history_rows in Hr.
  pose proof (export_lines_points (order_export (join_history db))
                (x_emp_id x) []) as Hall.
  rewrite Hsplit in Hall.
  change (pre ++ x :: post) with (pre ++ [x] ++ post) in Hall.
  rewrite app_assoc, exported_points_app in Hall.
  assert (Hrest : exported_points post (x_emp_id x) = 0).
  { clear - Hpost. induction post as [|y post IH]; [reflexivity|].
    cbn [exported_points fold_right]. fold (exported_points post (x_emp_id x)).
    rewrite IH by (intros; apply Hpost; now right).
    destruct (Z.eqb_spec (x_emp_id y) (x_emp_id x)) as [Heq|]; [|lia].
    destruct (Hpost y (or_introl eq_refl) Heq). }
  destruct (order_export_rows (join_history db) (x_emp_id x)) as [Hs _].
  rewrite Hs, Hk in Hall. unfold join_history in Hall.
  rewrite (joined_points_history _ _ _ Hnd Hr) in Hall.
  unfold ledger_total, history_of. rewrite Hk in *. lia.
Qed.

Lemma export_running_totals_witness :
  let db :=
    conn (after (after fresh (infraction "01-20-2025" 1))
            (infraction "01-10-2025" (1 # 2))) in
  let first_line :=
    mkxrow 2 100 "Doe" "Jane" (mkdate 2025 1 10) 50 "Absence" "" "" 50 in
  let last_line :=
    mkxrow 1 100 "Doe" "Jane" (mkdate 2025 1 20) 100 "Absence" "" "" 150 in
  unique_employee_ids db
  /\ export_point_history db = [first_line] ++ last_line :: []
  /\ x_point_total last_line = ledger_total db 100.
Proof.
  cbv zeta.
  assert (H : unique_employee_ids
                (conn (after (after fresh (infraction "01-20-2025" 1))
                         (infraction "01-10-2025" (1 # 2)))))
    by one_key.
  split; [exact H|]. split; [reflexivity|].
  apply (export_running_totals _
           [mkxrow 2 100 "Doe" "Jane" (mkdate 2025 1 10) 50 "Absence" "" "" 50]
           [] _ H eq_refl).
  intros y [].
Defined.
